(** * MemGen-AI: caption model, orchestrator, canvas interaction and export

    A shallow embedding of the TypeScript sources

      - [types.ts]            (the caption record and the request status),
      - [App.tsx]             (the orchestrator: state and handlers),
      - [MemeCanvas.tsx]      (pointer handling and the raster export),
      - [geminiService.ts]    (image normalisation before a model call),

    followed by the properties of the specification stated over it.

    Conventions.  A JavaScript [number] is an IEEE 754 binary64 value and is
    modelled by Rocq's primitive [float], which is the same format; the one
    exception is the reading of the millisecond clock [Date.now()], an
    integral number, which is modelled by [Z].  A JavaScript string is
    modelled by the [string] of the bytes of its UTF-8 encoding: the
    operations the sources use (a comma or a [data:] prefix searched,
    white space trimmed, strings joined) act alike on both, since an ASCII
    byte never occurs inside the encoding of another character.  An
    optional property is an [option]
    ([None] is [undefined]).  Everything the browser decides (the clock, the
    layout boxes, the network, the PNG encoder, the share sheet) is a
    parameter of the function that consults it. *)

From Stdlib Require Import Bool List FinFun String Ascii ZArith Lia.
From Stdlib Require Import Floats DecimalString DecimalPos DecimalZ.
Import ListNotations.

Open Scope string_scope.

(* ================================================================== *)
(** ** JavaScript built-ins used by the sources *)
(* ================================================================== *)

Module Js.

(** [Number.prototype.toString] on an integral number (radix 10). *)
Definition toString (n : Z) : string :=
  NilZero.string_of_int (Z.to_int n).

(** Truthiness of a string-or-null value: [null] and [''] are falsy. *)
Definition truthy (v : option string) : bool :=
  match v with
  | None => false
  | Some EmptyString => false
  | Some _ => true
  end.

(** Truthiness of an optional boolean property. *)
Definition truthy_flag (v : option bool) : bool :=
  match v with
  | Some true => true
  | _ => false
  end.

(** The white space and line terminators that [String.prototype.trim]
    removes ([WhiteSpace] and [LineTerminator] of ECMAScript), by the
    length of their UTF-8 encoding.

    One byte: TAB, LF, VT, FF, CR and SPACE. *)
Definition is_space (c : ascii) : bool :=
  let n := nat_of_ascii c in
  ((9 <=? n) && (n <=? 13))%nat || (n =? 32)%nat.

(** Two bytes: U+00A0 NO-BREAK SPACE ([C2 A0]). *)
Definition is_space2 (c d : ascii) : bool :=
  ((nat_of_ascii c =? 194) && (nat_of_ascii d =? 160))%nat.

(** Three bytes: U+1680 ([E1 9A 80]); U+2000 to U+200A ([E2 80 80] to
    [E2 80 8A]); the line and paragraph separators U+2028 and U+2029
    ([E2 80 A8], [E2 80 A9]); U+202F ([E2 80 AF]); U+205F ([E2 81 9F]);
    U+3000 ([E3 80 80]); U+FEFF ([EF BB BF]). *)
Definition is_space3 (c d e : ascii) : bool :=
  let a := nat_of_ascii c in
  let b := nat_of_ascii d in
  let k := nat_of_ascii e in
  ((a =? 225) && (b =? 154) && (k =? 128)
   || (a =? 226) && (b =? 128)
      && ((128 <=? k) && (k <=? 138) || (k =? 168) || (k =? 169) || (k =? 175))
   || (a =? 226) && (b =? 129) && (k =? 159)
   || (a =? 227) && (b =? 128) && (k =? 128)
   || (a =? 239) && (b =? 187) && (k =? 191))%nat.

Fixpoint trimStart (s : string) : string :=
  match s with
  | EmptyString => EmptyString
  | String c r =>
      if is_space c then trimStart r
      else
        match r with
        | EmptyString => s
        | String d r2 =>
            if is_space2 c d then trimStart r2
            else
              match r2 with
              | EmptyString => s
              | String e r3 => if is_space3 c d e then trimStart r3 else s
              end
        end
  end.

(** [s] consists of white space only. *)
Definition blank (s : string) : bool :=
  match trimStart s with
  | EmptyString => true
  | String _ _ => false
  end.

(** The longest run of white space at the end is the first suffix that is
    white space only. *)
Fixpoint trimEnd (s : string) : string :=
  match s with
  | EmptyString => EmptyString
  | String c r => if blank s then EmptyString else String c (trimEnd r)
  end.

Definition trim (s : string) : string := trimEnd (trimStart s).

(** White space outside ASCII, as UTF-8. *)
Definition nbsp : string := String "194" (String "160" EmptyString).

Definition emSpace : string :=
  String "226" (String "128" (String "131" EmptyString)).

Definition lineSeparator : string :=
  String "226" (String "128" (String "168" EmptyString)).

Definition ideographicSpace : string :=
  String "227" (String "128" (String "128" EmptyString)).

Definition byteOrderMark : string :=
  String "239" (String "187" (String "191" EmptyString)).

(** [s.includes(c)] for a one-character needle. *)
Fixpoint includes (c : ascii) (s : string) : bool :=
  match s with
  | EmptyString => false
  | String d r => Ascii.eqb d c || includes c r
  end.

(** [s.split(c)] for a one-character separator: never the empty list. *)
Fixpoint split (c : ascii) (s : string) : list string :=
  match s with
  | EmptyString => [EmptyString]
  | String d r =>
      if Ascii.eqb d c then EmptyString :: split c r
      else match split c r with
           | [] => [String d EmptyString]
           | h :: t => String d h :: t
           end
  end.

(** [s.startsWith(p)]. *)
Definition startsWith (p s : string) : bool := String.prefix p s.

(** [Math.min(a, b)] and [Math.max(a, b)]: [NaN] if an argument is [NaN];
    [-0] counts as smaller than [+0]. *)
Definition is_neg_zero (a : float) : bool :=
  (PrimFloat.is_zero a && PrimFloat.get_sign a)%bool.

Definition min (a b : float) : float :=
  if (PrimFloat.is_nan a || PrimFloat.is_nan b)%bool then PrimFloat.nan
  else if (a <? b)%float then a
  else if (b <? a)%float then b
  else if is_neg_zero a then a else b.

Definition max (a b : float) : float :=
  if (PrimFloat.is_nan a || PrimFloat.is_nan b)%bool then PrimFloat.nan
  else if (a <? b)%float then b
  else if (b <? a)%float then a
  else if is_neg_zero a then b else a.

End Js.

(* ================================================================== *)
(** ** types.ts *)
(* ================================================================== *)

Module Types.

(** [interface MemeCaption]; [isDragging?] is optional. *)
Record MemeCaption : Type := mkCaption {
  id : string;
  text : string;
  x : float;
  y : float;
  color : string;
  fontSize : float;
  isDragging : option bool
}.

(** [Partial<MemeCaption>]: every key may be absent. *)
Record PartialCaption : Type := mkPartial {
  upd_id : option string;
  upd_text : option string;
  upd_x : option float;
  upd_y : option float;
  upd_color : option string;
  upd_fontSize : option float;
  upd_isDragging : option bool
}.

(** The object literal [{}]. *)
Definition no_updates : PartialCaption :=
  mkPartial None None None None None None None.

Inductive Category : Type :=
  Funny | Sarcastic | Dark | Wholesome | Relatable.

Record GeneratedCaption : Type := mkGenerated {
  suggestion : string;          (* [text] *)
  category : Category
}.

Inductive AppState : Type := IDLE | ANALYZING | EDITING | ERROR.

(** An image blob: the PNG bytes, kept opaque. *)
Record Blob : Type := mkBlob { blob_type : string; blob_bytes : string }.

(** The spread [{ ...c, ...updates }]. *)
Definition over {A : Type} (old : A) (new : option A) : A :=
  match new with Some v => v | None => old end.

Definition spread (c : MemeCaption) (u : PartialCaption) : MemeCaption :=
  {| id := over (id c) (upd_id u);
     text := over (text c) (upd_text u);
     x := over (x c) (upd_x u);
     y := over (y c) (upd_y u);
     color := over (color c) (upd_color u);
     fontSize := over (fontSize c) (upd_fontSize u);
     isDragging := match upd_isDragging u with
                   | Some b => Some b
                   | None => isDragging c
                   end |}.

(** [cap.isDragging] used as a condition. *)
Definition dragging (c : MemeCaption) : bool := Js.truthy_flag (isDragging c).

End Types.

Import Types.

(* ================================================================== *)
(** ** App.tsx: the state and its pure updates *)
(* ================================================================== *)

Module App.

(** The seven [useState] cells of the component. *)
Record State : Type := mkState {
  currentImage : option string;
  captions : list MemeCaption;
  selectedCaptionId : option string;
  generatedCaptions : list GeneratedCaption;
  appState : AppState;
  editPrompt : string;
  errorMsg : option string
}.

Definition initial : State :=
  {| currentImage := None; captions := []; selectedCaptionId := None;
     generatedCaptions := []; appState := IDLE; editPrompt := "";
     errorMsg := None |}.

Definition setCurrentImage (v : option string) (s : State) : State :=
  {| currentImage := v; captions := captions s;
     selectedCaptionId := selectedCaptionId s;
     generatedCaptions := generatedCaptions s; appState := appState s;
     editPrompt := editPrompt s; errorMsg := errorMsg s |}.

(** [setCaptions] is only ever called with an updater function. *)
Definition setCaptions (f : list MemeCaption -> list MemeCaption) (s : State)
  : State :=
  {| currentImage := currentImage s; captions := f (captions s);
     selectedCaptionId := selectedCaptionId s;
     generatedCaptions := generatedCaptions s; appState := appState s;
     editPrompt := editPrompt s; errorMsg := errorMsg s |}.

Definition setSelectedCaptionId (v : option string) (s : State) : State :=
  {| currentImage := currentImage s; captions := captions s;
     selectedCaptionId := v;
     generatedCaptions := generatedCaptions s; appState := appState s;
     editPrompt := editPrompt s; errorMsg := errorMsg s |}.

Definition setGeneratedCaptions (v : list GeneratedCaption) (s : State)
  : State :=
  {| currentImage := currentImage s; captions := captions s;
     selectedCaptionId := selectedCaptionId s;
     generatedCaptions := v; appState := appState s;
     editPrompt := editPrompt s; errorMsg := errorMsg s |}.

Definition setAppState (v : AppState) (s : State) : State :=
  {| currentImage := currentImage s; captions := captions s;
     selectedCaptionId := selectedCaptionId s;
     generatedCaptions := generatedCaptions s; appState := v;
     editPrompt := editPrompt s; errorMsg := errorMsg s |}.

Definition setEditPrompt (v : string) (s : State) : State :=
  {| currentImage := currentImage s; captions := captions s;
     selectedCaptionId := selectedCaptionId s;
     generatedCaptions := generatedCaptions s; appState := appState s;
     editPrompt := v; errorMsg := errorMsg s |}.

Definition setErrorMsg (v : option string) (s : State) : State :=
  {| currentImage := currentImage s; captions := captions s;
     selectedCaptionId := selectedCaptionId s;
     generatedCaptions := generatedCaptions s; appState := appState s;
     editPrompt := editPrompt s; errorMsg := v |}.

(** [const selectedCaption = captions.find(c => c.id === selectedCaptionId)] *)
Definition selectedCaption (s : State) : option MemeCaption :=
  match selectedCaptionId s with
  | None => None
  | Some sel => find (fun c => String.eqb (id c) sel) (captions s)
  end.

(** The caption literal built by [addCaption]. *)
Definition newCaption (i t : string) : MemeCaption :=
  {| id := i; text := t; x := 300%float; y := 50%float;
     color := "#FFFFFF"; fontSize := 32%float; isDragging := None |}.

(** [addCaption(text)]; [now] is the value [Date.now()] returns. *)
Definition addCaption (now : Z) (t : string) (s : State) : State :=
  let i := Js.toString now in
  setSelectedCaptionId (Some i)
    (setCaptions (fun prev => (prev ++ [newCaption i t])%list) s).

(** The updater passed to [setCaptions] by [updateCaption]. *)
Definition updateCaptions (i : string) (updates : PartialCaption)
    (prev : list MemeCaption) : list MemeCaption :=
  map (fun c => if String.eqb (id c) i then spread c updates else c) prev.

Definition updateCaption (i : string) (updates : PartialCaption) (s : State)
  : State :=
  setCaptions (updateCaptions i updates) s.

(** A sequence of add-caption actions, each with the clock reading at
    which it runs and its text, oldest first. *)
Definition addCaptions (ops : list (Z * string)) (s : State) : State :=
  fold_left (fun st op => addCaption (fst op) (snd op) st) ops s.

Definition deleteCaption (i : string) (s : State) : State :=
  let s1 := setCaptions
              (filter (fun c => negb (String.eqb (id c) i))) s in
  match selectedCaptionId s with
  | Some sel => if String.eqb sel i then setSelectedCaptionId None s1 else s1
  | None => s1
  end.

End App.


(* ================================================================== *)
(** ** Promises *)
(* ================================================================== *)

Module Promise.

(** A thrown value or rejection reason: the message of the [Error]. *)
Definition Error : Type := string.

(** How an awaited promise settles. *)
Inductive Outcome (A : Type) : Type :=
| Resolved (value : A)
| Rejected (reason : Error).

Arguments Resolved {A} value.
Arguments Rejected {A} reason.

End Promise.

Import Promise.

(* ================================================================== *)
(** ** MemeCanvas.tsx *)
(* ================================================================== *)

Module MemeCanvas.

(** What [getBoundingClientRect()] returns. *)
Record DOMRect : Type := mkRect {
  left : float;
  top : float;
  width : float;
  height : float
}.

(** The [<img>] behind [imgRef]: its intrinsic size and its layout box. *)
Record HTMLImageElement : Type := mkImg {
  naturalWidth : float;
  naturalHeight : float;
  imgRect : DOMRect
}.

(** The value of [ctx.font]; the source writes it as the template string
    [`700 ${size}px Oswald`]. *)
Record Font : Type := mkFont {
  font_weight : string;
  font_px : float;
  font_family : string
}.

(** The drawing state of a 2D context that the export touches. *)
Record Context2D : Type := mkCtx {
  font : Font;
  fillStyle : string;
  strokeStyle : string;
  lineWidth : float;
  shadowColor : string;
  shadowBlur : float;
  shadowOffsetX : float;
  shadowOffsetY : float;
  textAlign : string;
  textBaseline : string
}.

(** The state of a freshly created context (the Canvas API defaults). *)
Definition fresh_context : Context2D :=
  {| font := mkFont "400" 10%float "sans-serif";
     fillStyle := "#000000"; strokeStyle := "#000000";
     lineWidth := 1%float;
     shadowColor := "rgba(0, 0, 0, 0)"; shadowBlur := 0%float;
     shadowOffsetX := 0%float; shadowOffsetY := 0%float;
     textAlign := "start"; textBaseline := "alphabetic" |}.

(** A drawing call, with the drawing state in force when it was made. *)
Inductive DrawOp : Type :=
| DrawImage (img : HTMLImageElement) (dx dy : float)
| StrokeText (st : Context2D) (t : string) (px py : float)
| FillText (st : Context2D) (t : string) (px py : float).

(** The off-screen canvas: its size, its context and what was drawn, in
    drawing order. *)
Record Canvas : Type := mkCanvas {
  canvas_width : float;
  canvas_height : float;
  ctx : Context2D;
  drawn : list DrawOp
}.

Definition with_ctx (f : Context2D -> Context2D) (c : Canvas) : Canvas :=
  {| canvas_width := canvas_width c; canvas_height := canvas_height c;
     ctx := f (ctx c); drawn := drawn c |}.

Definition draw (op : Context2D -> DrawOp) (c : Canvas) : Canvas :=
  {| canvas_width := canvas_width c; canvas_height := canvas_height c;
     ctx := ctx c; drawn := (drawn c ++ [op (ctx c)])%list |}.

(** The assignments [ctx.<property> = v]. *)
Definition set_font (v : Font) : Canvas -> Canvas :=
  with_ctx (fun k =>
    mkCtx v (fillStyle k) (strokeStyle k) (lineWidth k) (shadowColor k)
      (shadowBlur k) (shadowOffsetX k) (shadowOffsetY k) (textAlign k)
      (textBaseline k)).

Definition set_fillStyle (v : string) : Canvas -> Canvas :=
  with_ctx (fun k =>
    mkCtx (font k) v (strokeStyle k) (lineWidth k) (shadowColor k)
      (shadowBlur k) (shadowOffsetX k) (shadowOffsetY k) (textAlign k)
      (textBaseline k)).

Definition set_strokeStyle (v : string) : Canvas -> Canvas :=
  with_ctx (fun k =>
    mkCtx (font k) (fillStyle k) v (lineWidth k) (shadowColor k)
      (shadowBlur k) (shadowOffsetX k) (shadowOffsetY k) (textAlign k)
      (textBaseline k)).

Definition set_lineWidth (v : float) : Canvas -> Canvas :=
  with_ctx (fun k =>
    mkCtx (font k) (fillStyle k) (strokeStyle k) v (shadowColor k)
      (shadowBlur k) (shadowOffsetX k) (shadowOffsetY k) (textAlign k)
      (textBaseline k)).

Definition set_shadowColor (v : string) : Canvas -> Canvas :=
  with_ctx (fun k =>
    mkCtx (font k) (fillStyle k) (strokeStyle k) (lineWidth k) v
      (shadowBlur k) (shadowOffsetX k) (shadowOffsetY k) (textAlign k)
      (textBaseline k)).

Definition set_shadowBlur (v : float) : Canvas -> Canvas :=
  with_ctx (fun k =>
    mkCtx (font k) (fillStyle k) (strokeStyle k) (lineWidth k) (shadowColor k)
      v (shadowOffsetX k) (shadowOffsetY k) (textAlign k) (textBaseline k)).

Definition set_shadowOffsetX (v : float) : Canvas -> Canvas :=
  with_ctx (fun k =>
    mkCtx (font k) (fillStyle k) (strokeStyle k) (lineWidth k) (shadowColor k)
      (shadowBlur k) v (shadowOffsetY k) (textAlign k) (textBaseline k)).

Definition set_shadowOffsetY (v : float) : Canvas -> Canvas :=
  with_ctx (fun k =>
    mkCtx (font k) (fillStyle k) (strokeStyle k) (lineWidth k) (shadowColor k)
      (shadowBlur k) (shadowOffsetX k) v (textAlign k) (textBaseline k)).

Definition set_textAlign (v : string) : Canvas -> Canvas :=
  with_ctx (fun k =>
    mkCtx (font k) (fillStyle k) (strokeStyle k) (lineWidth k) (shadowColor k)
      (shadowBlur k) (shadowOffsetX k) (shadowOffsetY k) v (textBaseline k)).

Definition set_textBaseline (v : string) : Canvas -> Canvas :=
  with_ctx (fun k =>
    mkCtx (font k) (fillStyle k) (strokeStyle k) (lineWidth k) (shadowColor k)
      (shadowBlur k) (shadowOffsetX k) (shadowOffsetY k) (textAlign k) v).

(** The drawing calls. *)
Definition drawImage (img : HTMLImageElement) (dx dy : float)
  : Canvas -> Canvas :=
  draw (fun _ => DrawImage img dx dy).

Definition strokeText (t : string) (px py : float) : Canvas -> Canvas :=
  draw (fun k => StrokeText k t px py).

Definition fillText (t : string) (px py : float) : Canvas -> Canvas :=
  draw (fun k => FillText k t px py).

(** Statements in sequence: [c ;> f ;> g] runs [f], then [g]. *)
Notation "c ;> f" := (f c) (at level 61, left associativity, only parsing).

(** The body of [captions.forEach(cap => ...)] in [generateMemeBlob]. *)
Definition drawCaption (scale offsetX offsetY : float) (c : Canvas)
    (cap : MemeCaption) : Canvas :=
  let px := ((x cap - offsetX) * scale)%float in
  let py := ((y cap - offsetY) * scale)%float in
  c ;> set_font (mkFont "700" (fontSize cap * scale)%float "Oswald")
    ;> set_fillStyle (color cap)
    ;> set_strokeStyle "black"
    ;> set_lineWidth (4 * scale)%float
    ;> set_shadowColor "rgba(0,0,0,0.8)"
    ;> set_shadowBlur (4 * scale)%float
    ;> set_shadowOffsetX 0%float
    ;> set_shadowOffsetY (2 * scale)%float
    ;> strokeText (text cap) px py
    ;> set_shadowBlur 0%float
    ;> fillText (text cap) px py.

(** The scaling factor and the letterbox offsets computed before the loop. *)
Definition exportScale (img : HTMLImageElement) : float :=
  (naturalWidth img / width (imgRect img))%float.

Definition exportOffsetX (img : HTMLImageElement) (containerRect : DOMRect)
  : float :=
  (left (imgRect img) - left containerRect)%float.

Definition exportOffsetY (img : HTMLImageElement) (containerRect : DOMRect)
  : float :=
  (top (imgRect img) - top containerRect)%float.

(** [generateMemeBlob] from the creation of the canvas to the end of the
    caption loop: everything that is drawn. *)
Definition compose (img : HTMLImageElement) (containerRect : DOMRect)
    (captions : list MemeCaption) : Canvas :=
  let canvas :=
    {| canvas_width := naturalWidth img; canvas_height := naturalHeight img;
       ctx := fresh_context; drawn := [] |} in
  let canvas := canvas ;> drawImage img 0%float 0%float in
  let scale := exportScale img in
  let offsetX := exportOffsetX img containerRect in
  let offsetY := exportOffsetY img containerRect in
  let canvas := canvas ;> set_textAlign "center" ;> set_textBaseline "middle" in
  fold_left (drawCaption scale offsetX offsetY) captions canvas.

(** The part of the page the component reads through its refs, and the
    two things the browser decides during an export: whether a 2D context
    can be had, and how [canvas.toBlob] ends ([null], a blob, or a throw on
    a tainted canvas). *)
Record Dom : Type := mkDom {
  imgRef : option HTMLImageElement;
  containerRef : option DOMRect;
  getContext2d : bool;
  toBlob : Canvas -> Outcome (option Blob)
}.

(** [generateMemeBlob()], the one operation of [MemeCanvasHandle]. *)
Definition generateMemeBlob (dom : Dom) (captions : list MemeCaption)
  : Outcome (option Blob) :=
  match imgRef dom, containerRef dom with
  | Some img, Some container =>
      if getContext2d dom
      then toBlob dom (compose img container captions)
      else Resolved None
  | _, _ => Resolved None
  end.

(** The pointer position of a [React.MouseEvent]. *)
Record MouseEvent : Type := mkMouse { clientX : float; clientY : float }.

(** [handleMouseDown(e, id)]: [onSelect] and [onUpdateCaption] are the
    orchestrator's [setSelectedCaptionId] and [updateCaption]. *)
Definition handleMouseDown (i : string) (s : App.State) : App.State :=
  App.updateCaption i
    (mkPartial None None None None None None (Some true))
    (App.setSelectedCaptionId (Some i) s).

Definition handleContainerMouseDown (s : App.State) : App.State :=
  App.setSelectedCaptionId None s.

(** The position a pointer-move assigns to a dragged caption. *)
Definition clampedX (e : MouseEvent) (containerRect : DOMRect) : float :=
  Js.max 0%float
    (Js.min (clientX e - left containerRect)%float (width containerRect)).

Definition clampedY (e : MouseEvent) (containerRect : DOMRect) : float :=
  Js.max 0%float
    (Js.min (clientY e - top containerRect)%float (height containerRect)).

(** [handleMouseMove(e)]; [captions] is the prop of the last render. *)
Definition handleMouseMove (container : option DOMRect) (e : MouseEvent)
    (captions : list MemeCaption) (s : App.State) : App.State :=
  match container with
  | None => s
  | Some containerRect =>
      fold_left
        (fun st cap =>
           if dragging cap
           then App.updateCaption (id cap)
                  (mkPartial None None
                     (Some (clampedX e containerRect))
                     (Some (clampedY e containerRect))
                     None None None) st
           else st)
        captions s
  end.

(** [handleMouseUp()], the listener on [window]. *)
Definition handleMouseUp (captions : list MemeCaption) (s : App.State)
  : App.State :=
  fold_left
    (fun st cap =>
       if dragging cap
       then App.updateCaption (id cap)
              (mkPartial None None None None None None (Some false)) st
       else st)
    captions s.

(** The pointer events the component listens to.  A pointer-down on a
    caption carries that caption's id and does not reach the container
    ([stopPropagation]). *)
Inductive PointerEvent : Type :=
| DownOnCaption (i : string)
| DownOnContainer
| Move (container : option DOMRect) (e : MouseEvent)
| Up.

(** One event handled; the component has re-rendered since the previous
    one, so its [captions] prop is the orchestrator's current collection. *)
Definition handle (ev : PointerEvent) (s : App.State) : App.State :=
  match ev with
  | DownOnCaption i => handleMouseDown i s
  | DownOnContainer => handleContainerMouseDown s
  | Move container e => handleMouseMove container e (App.captions s) s
  | Up => handleMouseUp (App.captions s) s
  end.

(** The states passed through while a list of events is handled, the
    starting state first. *)
Fixpoint run (evs : list PointerEvent) (s : App.State) : list App.State :=
  match evs with
  | [] => [s]
  | ev :: rest => s :: run rest (handle ev s)
  end.

(** A single pointer: once the button is down it must come up before it
    can go down again.  ([down] tells whether it is down at the start; the
    listener on [window] also hears releases of presses made elsewhere on
    the page, so an [Up] is allowed at any point.) *)
Fixpoint single_pointer (down : bool) (evs : list PointerEvent) : bool :=
  match evs with
  | [] => true
  | DownOnCaption _ :: rest | DownOnContainer :: rest =>
      negb down && single_pointer true rest
  | Up :: rest => single_pointer false rest
  | Move _ _ :: rest => single_pointer down rest
  end.

(** How many captions are being dragged. *)
Definition draggingCount (captions : list MemeCaption) : nat :=
  List.length (filter dragging captions).

End MemeCanvas.


(* ================================================================== *)
(** ** Asynchronous code: state, exceptions, [try]/[catch]/[finally] *)
(* ================================================================== *)

Module Task.

(** An [async] function body over a store [S]: it ends by returning or by
    throwing, and leaves a store behind either way. *)
Definition Task (S A : Type) : Type := S -> Outcome A * S.

Definition ret {S A : Type} (a : A) : Task S A :=
  fun s => (Resolved a, s).

Definition bind {S A B : Type} (m : Task S A) (k : A -> Task S B)
  : Task S B :=
  fun s =>
    match m s with
    | (Resolved a, s') => k a s'
    | (Rejected e, s') => (Rejected e, s')
    end.

(** [throw new Error(msg)]. *)
Definition throw {S A : Type} (e : Error) : Task S A :=
  fun s => (Rejected e, s).

(** [await p] for a promise that settles as [o]. *)
Definition await {S A : Type} (o : Outcome A) : Task S A :=
  fun s => (o, s).

Definition get {S : Type} : Task S S :=
  fun s => (Resolved s, s).

Definition modify {S : Type} (f : S -> S) : Task S unit :=
  fun s => (Resolved tt, f s).

(** [try { body } catch (e) { handler e }]. *)
Definition try_catch {S A : Type} (body : Task S A)
    (handler : Error -> Task S A) : Task S A :=
  fun s =>
    match body s with
    | (Resolved a, s') => (Resolved a, s')
    | (Rejected e, s') => handler e s'
    end.

(** [try { body } finally { cleanup }]: the cleanup runs however the body
    ended, and the body's ending stands unless the cleanup itself throws. *)
Definition try_finally {S A : Type} (body : Task S A)
    (cleanup : Task S unit) : Task S A :=
  fun s =>
    match body s with
    | (r, s') =>
        match cleanup s' with
        | (Resolved _, s'') => (r, s'')
        | (Rejected e, s'') => (Rejected e, s'')
        end
    end.

(** Running a task over a part of a larger store. *)
Definition zoom {S T A : Type} (proj : T -> S) (inj : S -> T -> T)
    (m : Task S A) : Task T A :=
  fun t => match m (proj t) with (r, s') => (r, inj s' t) end.

End Task.

Import Task.

Notation "x <- m ;; k" := (Task.bind m (fun x => k))
  (at level 62, m at next level, right associativity).
Notation "m ;; k" := (Task.bind m (fun _ => k))
  (at level 62, right associativity).

(* ================================================================== *)
(** ** What the browser is asked to do *)
(* ================================================================== *)

Module Browser.

(** [new File([blob], name, { type })]. *)
Record File : Type := mkFile {
  file_parts : list Blob;
  file_name : string;
  file_type : string
}.

(** The argument of [navigator.share]. *)
Record ShareData : Type := mkShare {
  share_title : string;
  share_text : string;
  share_files : list File
}.

(** The calls that leave the program, in the order they are made. *)
Inductive Action : Type :=
| ConsoleError (message : string)
| ConsoleWarn (message : string)
| Fetch (url : string)
| ReadAsDataURL (file : Blob)
| LoadImage (src : string)
| SaveLink (download : string) (content : Blob)
| Share (data : ShareData)
| Alert (message : string).

Definition Log : Type := list Action.

(** One call made. *)
Definition tell (a : Action) : Task Log unit :=
  Task.modify (fun log => (log ++ [a])%list).

End Browser.

Import Browser.

(* ================================================================== *)
(** ** geminiService.ts *)
(* ================================================================== *)

Module GeminiService.

(** What [fetch] resolves to: the status and how reading the body ends. *)
Record Response : Type := mkResponse {
  ok : bool;
  statusText : string;
  blob : Outcome Blob
}.

(** How a [FileReader] ends: its [error] event, or [loadend] after a
    successful read with [reader.result] a string. *)
Inductive ReadEnd : Type :=
| ReadError (event : Error)
| ReadDone (result : string).

(** A decoded image, as the fallback's [Image] element holds it. *)
Record Picture : Type := mkPicture {
  pic_naturalWidth : float;
  pic_naturalHeight : float
}.

(** What the platform decides while an image input is resolved. *)
Record Platform : Type := mkPlatform {
  fetch : string -> Outcome Response;
  readAsDataURL : Blob -> ReadEnd;
  loadImage : string -> option Picture;        (* [None]: [img.onerror] *)
  canvasContext : bool;                        (* [getContext("2d")] not null *)
  toDataURL : Picture -> Outcome string        (* throws on a tainted canvas *)
}.

(** [s.split(',')[1]]: [undefined] ([None]) when [s] has no comma. *)
Definition afterComma (s : string) : option string :=
  nth_error (Js.split "," s) 1.

(** [fileToGenerativePart(file)]. *)
Definition fileToGenerativePart (p : Platform) (file : Blob)
  : Task Log (option string) :=
  tell (ReadAsDataURL file) ;;
  match readAsDataURL p file with
  | ReadError event => Task.throw event
  | ReadDone result =>
      if Js.truthy (Some result)
      then Task.ret (afterComma result)
      else Task.throw "Failed to read file"
  end.

(** [base64ToGenerativePart(base64String)]. *)
Definition base64ToGenerativePart (base64String : string) : option string :=
  if Js.includes "," base64String
  then afterComma base64String
  else Some base64String.

(** The [catch] branch of [resolveImageInput]: load the input into an
    [Image], draw it on a canvas and read the canvas back. *)
Definition canvasFallback (p : Platform) (input : string) (error : Error)
  : Task Log (option string) :=
  tell (ConsoleWarn
          ("Fetch failed, trying canvas fallback for CORS images... " ++ error)) ;;
  tell (LoadImage input) ;;
  match loadImage p input with
  | None => Task.throw "Failed to load image resource"
  | Some img =>
      if canvasContext p
      then match toDataURL p img with
           | Resolved dataUrl => Task.ret (base64ToGenerativePart dataUrl)
           | Rejected _ => Task.throw "Canvas tainted, CORS blocked"
           end
      else Task.throw "Canvas context failed"
  end.

(** The [try] block of [resolveImageInput]: fetch and convert. *)
Definition fetchAndConvert (p : Platform) (input : string)
  : Task Log (option string) :=
  tell (Fetch input) ;;
  response <- Task.await (fetch p input) ;;
  if negb (ok response)
  then Task.throw ("Failed to fetch image: " ++ statusText response)
  else
    body <- Task.await (blob response) ;;
    fileToGenerativePart p body.

(** [resolveImageInput(input)]. *)
Definition resolveImageInput (p : Platform) (input : string)
  : Task Log (option string) :=
  if Js.startsWith "data:" input
  then Task.ret (base64ToGenerativePart input)
  else Task.try_catch (fetchAndConvert p input) (canvasFallback p input).

(** One part of a model response: its [inlineData], if it has one. *)
Record InlineData : Type := mkInline { mimeType : string; data : string }.

(** The request [editMemeImage] sends, and the model as a function of it;
    the answer is [response.candidates?.[0]?.content?.parts || []]. *)
Record EditRequest : Type := mkEditRequest {
  req_model : string;
  req_image : option string;
  req_text : string
}.

Definition Model : Type := EditRequest -> Outcome (list (option InlineData)).

(** The [for] loop of [editMemeImage]: the first part with [inlineData]. *)
Fixpoint firstInline (parts : list (option InlineData)) : option InlineData :=
  match parts with
  | [] => None
  | Some d :: _ => Some d
  | None :: rest => firstInline rest
  end.

(** [editMemeImage(imageInput, prompt)]. *)
Definition editMemeImage (p : Platform) (ai : Model) (imageInput prompt : string)
  : Task Log string :=
  Task.try_catch
    (cleanBase64 <- resolveImageInput p imageInput ;;
     parts <- Task.await
       (ai {| req_model := "gemini-2.5-flash-image";
              req_image := cleanBase64;
              req_text := "Edit this image: " ++ prompt ++
                ". Maintain the main subject but apply the requested changes." |}) ;;
     match firstInline parts with
     | Some d => Task.ret ("data:" ++ mimeType d ++ ";base64," ++ data d)
     | None => Task.throw "No image generated in response"
     end)
    (fun error =>
       tell (ConsoleError ("Error editing image: " ++ error)) ;;
       Task.throw error).

End GeminiService.

(* ================================================================== *)
(** ** App.tsx: the asynchronous handlers *)
(* ================================================================== *)

Module Handlers.

(** The component's state together with the calls made so far. *)
Record World : Type := mkWorld {
  app : App.State;
  log : Log
}.

(** A [set...] call of the component. *)
Definition set (f : App.State -> App.State) : Task World unit :=
  Task.modify (fun w => {| app := f (app w); log := log w |}).

(** A call into code that only talks to the browser. *)
Definition call {A : Type} (m : Task Log A) : Task World A :=
  Task.zoom log (fun l w => {| app := app w; log := l |}) m.

(** [handleMagicCaption]; the argument is the caption-suggestion
    collaborator [generateMemeCaptions]. *)
Definition handleMagicCaption
    (generateMemeCaptions : string -> Task Log (list GeneratedCaption))
  : Task World unit :=
  w <- Task.get ;;
  match App.currentImage (app w) with
  | None => Task.ret tt
  | Some currentImage =>
      if negb (Js.truthy (Some currentImage)) then Task.ret tt
      else
        set (App.setAppState ANALYZING) ;;
        set (App.setErrorMsg None) ;;
        Task.try_finally
          (Task.try_catch
             (results <- call (generateMemeCaptions currentImage) ;;
              set (App.setGeneratedCaptions results))
             (fun e =>
                call (tell (ConsoleError e)) ;;
                set (App.setErrorMsg
                       (Some "Failed to generate captions. Try again."))))
          (set (App.setAppState IDLE))
  end.

(** [handleImageEdit]; the argument is the image-edit collaborator
    [editMemeImage]. *)
Definition handleImageEdit
    (editMemeImage : string -> string -> Task Log string)
  : Task World unit :=
  w <- Task.get ;;
  let editPrompt := App.editPrompt (app w) in
  match App.currentImage (app w) with
  | None => Task.ret tt
  | Some currentImage =>
      if negb (Js.truthy (Some currentImage))
         || negb (Js.truthy (Some (Js.trim editPrompt)))
      then Task.ret tt
      else
        set (App.setAppState EDITING) ;;
        set (App.setErrorMsg None) ;;
        Task.try_finally
          (Task.try_catch
             (newImageBase64 <- call (editMemeImage currentImage editPrompt) ;;
              set (App.setCurrentImage (Some newImageBase64)) ;;
              set (App.setEditPrompt ""))
             (fun e =>
                call (tell (ConsoleError e)) ;;
                set (App.setErrorMsg
                       (Some "Failed to edit image. The prompt might be too complex or blocked."))))
          (set (App.setAppState IDLE))
  end.

(** [memeCanvasRef.current.generateMemeBlob()]: the mounted canvas
    component exports the captions it was last rendered with. *)
Definition exportBlob (dom : MemeCanvas.Dom) : Task World (option Blob) :=
  w <- Task.get ;;
  Task.await (MemeCanvas.generateMemeBlob dom (App.captions (app w))).

(** [handleDownload]; [memeCanvasRef] is [None] while the canvas component
    is not mounted, [now] is the clock reading used for the file name.  The
    six statements that create, click and remove the download link are one
    [SaveLink] action. *)
Definition handleDownload (memeCanvasRef : option MemeCanvas.Dom) (now : Z)
  : Task World unit :=
  match memeCanvasRef with
  | None => Task.ret tt
  | Some dom =>
      Task.try_catch
        (blob <- exportBlob dom ;;
         match blob with
         | None => Task.throw "Could not generate image"
         | Some b =>
             call (tell (SaveLink ("memegen-" ++ Js.toString now ++ ".png") b))
         end)
        (fun err =>
           call (tell (ConsoleError err)) ;;
           set (App.setErrorMsg (Some "Failed to download meme.")))
  end.

(** [navigator]: [share] and [canShare] may each be missing. *)
Record Navigator : Type := mkNavigator {
  share : option (ShareData -> Outcome unit);
  canShare : option (list File -> bool)
}.

(** [handleShare]. *)
Definition handleShare (memeCanvasRef : option MemeCanvas.Dom)
    (navigator : Navigator) (now : Z) : Task World unit :=
  match memeCanvasRef with
  | None => Task.ret tt
  | Some dom =>
      Task.try_catch
        (blob <- exportBlob dom ;;
         match blob with
         | None => Task.throw "Could not generate image"
         | Some b =>
             let file := mkFile [b] "meme.png" "image/png" in
             let fallback :=
               handleDownload memeCanvasRef now ;;
               call (tell (Alert
                 "Image downloaded! You can now upload it to your favorite social platform.")) in
             match share navigator with
             | None => fallback
             | Some nativeShare =>
                 match canShare navigator with
                 | None => Task.throw "navigator.canShare is not a function"
                 | Some can =>
                     if can [file]
                     then
                       let data :=
                         mkShare "MemeGen AI"
                           "Check out this meme I created with MemeGen AI!"
                           [file] in
                       call (tell (Share data)) ;;
                       Task.await (nativeShare data)
                     else fallback
                 end
             end
         end)
        (fun err => call (tell (ConsoleError ("Share failed: " ++ err))))
  end.

End Handlers.

(* ================================================================== *)
(** ** geminiService.ts: the caption suggestions *)
(* ================================================================== *)

Module CaptionService.

Import GeminiService.

(** The request [generateMemeCaptions] sends: the model, the image as
    inline PNG data, and the prompt (the response schema is fixed). *)
Record CaptionRequest : Type := mkCaptionRequest {
  cap_model : string;
  cap_image : option string;
  cap_text : string
}.

(** The model as a function of the request; the answer is [response.text],
    which may be [undefined]. *)
Definition TextModel : Type := CaptionRequest -> Outcome (option string).

(** [response.text || "[]"]. *)
Definition textOrEmptyArray (t : option string) : string :=
  match t with
  | Some v => if Js.truthy (Some v) then v else "[]"
  | None => "[]"
  end.

(** [generateMemeCaptions(imageInput)].  [JSON.parse] is a parameter: it
    returns a value of some type [J] or throws; the source casts that value
    to [GeneratedCaption[]] without looking at it. *)
Definition generateMemeCaptions {J : Type} (p : Platform) (ai : TextModel)
    (parse : string -> Outcome J) (imageInput : string) : Task Log J :=
  Task.try_catch
    (cleanBase64 <- resolveImageInput p imageInput ;;
     t <- Task.await
       (ai {| cap_model := "gemini-3-pro-preview";
              cap_image := cleanBase64;
              cap_text := "Analyze this image and generate 5 funny, viral-worthy meme captions. 
            Provide a mix of styles (Funny, Sarcastic, Relatable). 
            Return the response in strictly valid JSON format." |}) ;;
     let jsonText := textOrEmptyArray t in
     Task.await (parse jsonText))
    (fun error =>
       tell (ConsoleError ("Error generating captions: " ++ error)) ;;
       Task.throw error).

End CaptionService.

(* ================================================================== *)
(** ** Uploader.tsx *)
(* ================================================================== *)

Module Uploader.

Import GeminiService.

(** The component reports to its parent through the prop
    [onImageSelect]; the parent's store is [S].  [read] is how the
    [FileReader] ends on a file; its [onload] runs on success only, and
    the component sets no [onerror]. *)
Section Component.

Variable S : Type.
Variable read : Blob -> ReadEnd.
Variable onImageSelect : string -> S -> S.

(** [handleFile(file)]; the argument is [undefined] ([None]) or a file. *)
Definition handleFile (file : option Blob) (s : S) : S :=
  match file with
  | None => s
  | Some f =>
      match read f with
      | ReadDone result => onImageSelect result s
      | ReadError _ => s
      end
  end.

(** [handleChange(e)] with [e.target.files] the chosen files. *)
Definition handleChange (files : list Blob) (s : S) : S :=
  match nth_error files 0 with
  | Some f => handleFile (Some f) s
  | None => s
  end.

(** [handleDrop(e)] with [e.dataTransfer.files] the dropped files. *)
Definition handleDrop (files : list Blob) (s : S) : S :=
  match nth_error files 0 with
  | Some f => handleFile (Some f) s
  | None => s
  end.

End Component.

Arguments handleFile {S} read onImageSelect file s.
Arguments handleChange {S} read onImageSelect files s.
Arguments handleDrop {S} read onImageSelect files s.

End Uploader.

(* ================================================================== *)
(** ** App.tsx and MemeCanvas.tsx: what the rendered controls do *)
(* ================================================================== *)

Module Ui.

Import App.

(** [interface MemeTemplate] and the constant [TEMPLATES]. *)
Record MemeTemplate : Type := mkTemplate {
  template_id : string;
  template_name : string;
  template_url : string
}.

Definition TEMPLATES : list MemeTemplate :=
  [ mkTemplate "1" "Distracted Boyfriend" "https://i.imgflip.com/1ur9b0.jpg";
    mkTemplate "2" "Success Kid" "https://i.imgflip.com/261o3j.jpg";
    mkTemplate "3" "Drake" "https://i.imgflip.com/30b1gx.jpg";
    mkTemplate "4" "Two Buttons" "https://i.imgflip.com/1g8my4.jpg" ].

(** What the user can do to the synchronous part of the page.  Captions
    and suggestions are addressed by their position in the rendered list,
    as the JSX attaches one handler per rendered item. *)
Inductive Action : Type :=
| ClickAddText (now : Z)
| ClickSuggestion (now : Z) (k : nat)
| TypeText (t : string)
| PickColor (c : string)
| SlideFontSize (v : float)
| ClickPanelDelete
| ClickCanvasDelete (n : nat)
| PressCaption (n : nat)
| PressContainer
| MovePointer (containerRect : MemeCanvas.DOMRect) (e : MemeCanvas.MouseEvent)
| ReleasePointer
| ChooseTemplate (k : nat)
| UploadFiles (read : Blob -> GeminiService.ReadEnd) (files : list Blob)
| TypePrompt (t : string).

(** [MemeCanvas] renders the container and the captions only with an image
    ([if (!imageSrc)] returns the placeholder). *)
Definition canvasShown (s : State) : bool := Js.truthy (currentImage s).

(** The edit panel is rendered with [selectedCaption &&]; each of its
    controls updates the caption it shows. *)
Definition onPanel (u : PartialCaption) (s : State) : State :=
  match selectedCaption s with
  | Some c => updateCaption (id c) u s
  | None => s
  end.

(** The [onChange] of the "Upload New" file input: the first chosen file
    is read as a data URL, which becomes the image when the read ends well. *)
Definition uploadNew (read : Blob -> GeminiService.ReadEnd)
    (files : list Blob) (s : State) : State :=
  match nth_error files 0 with
  | Some f =>
      match read f with
      | GeminiService.ReadDone result => setCurrentImage (Some result) s
      | GeminiService.ReadError _ => s
      end
  | None => s
  end.

(** One action handled. *)
Definition step (a : Action) (s : State) : State :=
  match a with
  | ClickAddText now => addCaption now "NEW TEXT" s
  | ClickSuggestion now k =>
      match nth_error (generatedCaptions s) k with
      | Some g => addCaption now (suggestion g) s
      | None => s
      end
  | TypeText t => onPanel (mkPartial None (Some t) None None None None None) s
  | PickColor c => onPanel (mkPartial None None None None (Some c) None None) s
  | SlideFontSize v =>
      onPanel (mkPartial None None None None None (Some v) None) s
  | ClickPanelDelete =>
      match selectedCaption s with
      | Some c => deleteCaption (id c) s
      | None => s
      end
  | ClickCanvasDelete n =>
      if canvasShown s
      then match nth_error (captions s) n, selectedCaptionId s with
           | Some c, Some sel =>
               if String.eqb sel (id c) then deleteCaption (id c) s else s
           | _, _ => s
           end
      else s
  | PressCaption n =>
      if canvasShown s
      then match nth_error (captions s) n with
           | Some c => MemeCanvas.handle (MemeCanvas.DownOnCaption (id c)) s
           | None => s
           end
      else s
  | PressContainer =>
      if canvasShown s
      then MemeCanvas.handle MemeCanvas.DownOnContainer s
      else s
  | MovePointer containerRect e =>
      if canvasShown s
      then MemeCanvas.handle (MemeCanvas.Move (Some containerRect) e) s
      else s
  | ReleasePointer => MemeCanvas.handle MemeCanvas.Up s
  | ChooseTemplate k =>
      if canvasShown s then s
      else match nth_error TEMPLATES k with
           | Some t => setCurrentImage (Some (template_url t)) s
           | None => s
           end
  | UploadFiles read files => uploadNew read files s
  | TypePrompt t => setEditPrompt t s
  end.

(** A session: the actions handled one after the other. *)
Definition session (acts : list Action) (s : State) : State :=
  fold_left (fun st a => step a st) acts s.

End Ui.

(* ================================================================== *)
(** ** Concrete pages, platforms and sessions used in examples *)
(* ================================================================== *)

Module Scenario.

(** Scenario A of the specification: a container of 800 by 600 whose image,
    1600 by 1200 natural, is displayed at 800 by 600 with no letterbox. *)
Definition containerA : MemeCanvas.DOMRect :=
  MemeCanvas.mkRect 0%float 0%float 800%float 600%float.

Definition imageA : MemeCanvas.HTMLImageElement :=
  MemeCanvas.mkImg 1600%float 1200%float containerA.

Definition captionA : MemeCaption :=
  {| id := "1762041600000"; text := "ONE DOES NOT SIMPLY";
     x := 400%float; y := 300%float; color := "#FFFFFF";
     fontSize := 32%float; isDragging := None |}.

Definition png : Blob := mkBlob "image/png" "PNG".

(** The page of scenario A with a working 2D context and encoder. *)
Definition domA : MemeCanvas.Dom :=
  MemeCanvas.mkDom (Some imageA) (Some containerA) true
    (fun _ => Resolved (Some png)).

(** The same page when no 2D context can be had. *)
Definition domNoContext : MemeCanvas.Dom :=
  MemeCanvas.mkDom (Some imageA) (Some containerA) false
    (fun _ => Resolved (Some png)).

(** The same page when the canvas is tainted: [toBlob] throws. *)
Definition domTainted : MemeCanvas.Dom :=
  MemeCanvas.mkDom (Some imageA) (Some containerA) true
    (fun _ => Rejected "SecurityError: Tainted canvases may not be exported.").

(** A session with an uploaded image, one caption and a typed prompt. *)
Definition session : Handlers.World :=
  {| Handlers.app :=
       {| App.currentImage := Some "data:image/png;base64,iVBORw0KGgo=";
          App.captions := [captionA];
          App.selectedCaptionId := Some "1762041600000";
          App.generatedCaptions := [];
          App.appState := IDLE;
          App.editPrompt := "make it cyberpunk";
          App.errorMsg := None |};
     Handlers.log := [] |}.

(** A platform with no network and no usable canvas. *)
Definition offline : GeminiService.Platform :=
  {| GeminiService.fetch := fun _ => Rejected "TypeError: Failed to fetch";
     GeminiService.readAsDataURL := fun _ => GeminiService.ReadError "error";
     GeminiService.loadImage := fun _ => None;
     GeminiService.canvasContext := false;
     GeminiService.toDataURL := fun _ => Rejected "SecurityError" |}.

(** A platform where the direct fetch is blocked but the image loads with
    permissive cross-origin headers, so the canvas can be read back. *)
Definition corsBlocked : GeminiService.Platform :=
  {| GeminiService.fetch := fun _ => Rejected "TypeError: Failed to fetch";
     GeminiService.readAsDataURL := fun _ => GeminiService.ReadError "error";
     GeminiService.loadImage :=
       fun _ => Some (GeminiService.mkPicture 500%float 500%float);
     GeminiService.canvasContext := true;
     GeminiService.toDataURL :=
       fun _ => Resolved "data:image/png;base64,Q0FOVkFT" |}.

(** A platform where the direct fetch works. *)
Definition online : GeminiService.Platform :=
  {| GeminiService.fetch :=
       fun _ => Resolved (GeminiService.mkResponse true "OK" (Resolved png));
     GeminiService.readAsDataURL :=
       fun _ => GeminiService.ReadDone "data:image/png;base64,UE5H";
     GeminiService.loadImage := fun _ => None;
     GeminiService.canvasContext := false;
     GeminiService.toDataURL := fun _ => Rejected "SecurityError" |}.

(** A platform where the fetch answers with an empty body: the file
    reader ends with the data URL [data:], which has no comma. *)
Definition emptyBody : GeminiService.Platform :=
  {| GeminiService.fetch :=
       fun _ => Resolved (GeminiService.mkResponse true "OK"
                            (Resolved (mkBlob "" "")));
     GeminiService.readAsDataURL := fun _ => GeminiService.ReadDone "data:";
     GeminiService.loadImage := fun _ => None;
     GeminiService.canvasContext := false;
     GeminiService.toDataURL := fun _ => Rejected "SecurityError" |}.

(** A model that answers with text only: no image part. *)
Definition textOnlyModel : GeminiService.Model :=
  fun _ => Resolved [None].

(** A browser with a share sheet that accepts files. *)
Definition sharingNavigator : Handlers.Navigator :=
  {| Handlers.share := Some (fun _ => Resolved tt);
     Handlers.canShare := Some (fun _ => true) |}.

End Scenario.

(* ================================================================== *)
(** ** Vocabulary of the properties *)
(* ================================================================== *)

Module HandlerNotions.

(** The compositor fails to produce an image: it resolves to [null] or it
    rejects. *)
Definition exportFails (dom : MemeCanvas.Dom) (captions : list MemeCaption)
  : Prop :=
  MemeCanvas.generateMemeBlob dom captions = Resolved None
  \/ exists e, MemeCanvas.generateMemeBlob dom captions = Rejected e.

End HandlerNotions.

Module ServiceNotions.

Import GeminiService.

(** The direct path fails: the fetch rejects, or answers with a status
    that is not ok, or its body cannot be read, or the file reader fails
    or ends with an empty result. *)
Definition directFails (p : Platform) (input : string) : Prop :=
  (exists e, fetch p input = Rejected e)
  \/ (exists r, fetch p input = Resolved r /\
        (ok r = false
         \/ (exists e, blob r = Rejected e)
         \/ (exists b, blob r = Resolved b /\
               ((exists ev, readAsDataURL p b = ReadError ev)
                \/ readAsDataURL p b = ReadDone "")))).

(** The direct path succeeds and the file reader ends with [result]. *)
Definition directReads (p : Platform) (input result : string) : Prop :=
  exists r b, fetch p input = Resolved r /\ ok r = true
              /\ blob r = Resolved b
              /\ readAsDataURL p b = ReadDone result
              /\ Js.truthy (Some result) = true.

(** The canvas path fails: the image does not load, or no 2D context can
    be had, or the canvas cannot be read back. *)
Definition fallbackFails (p : Platform) (input : string) : Prop :=
  loadImage p input = None
  \/ canvasContext p = false
  \/ (exists img e, loadImage p input = Some img /\ toDataURL p img = Rejected e).

(** The canvas path succeeds and the canvas reads back as [dataUrl]. *)
Definition fallbackReads (p : Platform) (input dataUrl : string) : Prop :=
  exists img, loadImage p input = Some img /\ canvasContext p = true
              /\ toDataURL p img = Resolved dataUrl.

End ServiceNotions.

Module ExportNotions.

Import MemeCanvas.

(** The drawing state in force at the stroke of a caption, and at its
    fill, as the lemmas below establish: the loop sets every property but
    the two alignments, which were set once before the loop. *)
Definition strokeState (scale : float) (cap : MemeCaption) : Context2D :=
  {| font := mkFont "700" (fontSize cap * scale)%float "Oswald";
     fillStyle := color cap;
     strokeStyle := "black";
     lineWidth := (4 * scale)%float;
     shadowColor := "rgba(0,0,0,0.8)";
     shadowBlur := (4 * scale)%float;
     shadowOffsetX := 0%float;
     shadowOffsetY := (2 * scale)%float;
     textAlign := "center";
     textBaseline := "middle" |}.

Definition fillState (scale : float) (cap : MemeCaption) : Context2D :=
  {| font := mkFont "700" (fontSize cap * scale)%float "Oswald";
     fillStyle := color cap;
     strokeStyle := "black";
     lineWidth := (4 * scale)%float;
     shadowColor := "rgba(0,0,0,0.8)";
     shadowBlur := 0%float;
     shadowOffsetX := 0%float;
     shadowOffsetY := (2 * scale)%float;
     textAlign := "center";
     textBaseline := "middle" |}.

(** The two drawing calls of one caption. *)
Definition captionOps (scale offsetX offsetY : float) (cap : MemeCaption)
  : list DrawOp :=
  let px := ((x cap - offsetX) * scale)%float in
  let py := ((y cap - offsetY) * scale)%float in
  [StrokeText (strokeState scale cap) (text cap) px py;
   FillText (fillState scale cap) (text cap) px py].

(** Where a text call puts its anchor, and with what text. *)
Definition textAnchor (op : DrawOp) : option (string * float * float) :=
  match op with
  | DrawImage _ _ _ => None
  | StrokeText _ t px py | FillText _ t px py => Some (t, px, py)
  end.

(** The alignment set before the caption loop is in force. *)
Definition aligned (c : Canvas) : Prop :=
  textAlign (ctx c) = "center" /\ textBaseline (ctx c) = "middle".

End ExportNotions.

Module NumberNotions.

(** [a] is a number, not [NaN]. *)
Definition number (a : float) : Prop := PrimFloat.is_nan a = false.

(** [a <= b] as JavaScript evaluates it on numbers. *)
Definition leq (a b : float) : Prop := (a <=? b)%float = true.

(** A specification float that is zero or finite. *)
Definition finite_sf (a : spec_float) : Prop :=
  match a with
  | S754_zero _ | S754_finite _ _ _ => True
  | _ => False
  end.

End NumberNotions.

Module DragNotions.

Import App MemeCanvas NumberNotions.

(** The update a pointer-move sends for each dragged caption, and the one
    a pointer-up sends. *)
Definition moveUpdate (e : MouseEvent) (containerRect : DOMRect)
  : PartialCaption :=
  mkPartial None None (Some (clampedX e containerRect))
    (Some (clampedY e containerRect)) None None None.

Definition releaseUpdate : PartialCaption :=
  mkPartial None None None None None None (Some false).

(** A caption is touched by a pass over [snapshot] when the snapshot holds
    a dragged caption with the same id. *)
Definition touched (snapshot : list MemeCaption) (c : MemeCaption) : bool :=
  existsb (fun d => dragging d && String.eqb (id c) (id d)) snapshot.

(** The loop shared by [handleMouseMove] and [handleMouseUp]. *)
Definition pass (u : PartialCaption) (snapshot : list MemeCaption)
    (s : State) : State :=
  fold_left
    (fun st cap => if dragging cap then updateCaption (id cap) u st else st)
    snapshot s.

(** What the browser guarantees about a pointer-move over a laid-out
    container: finite pointer and box coordinates, and a box that is not
    of negative size. *)
Definition wellFormedMove (containerRect : DOMRect) (e : MouseEvent) : Prop :=
  PrimFloat.is_finite (clientX e) = true
  /\ PrimFloat.is_finite (clientY e) = true
  /\ PrimFloat.is_finite (left containerRect) = true
  /\ PrimFloat.is_finite (top containerRect) = true
  /\ leq 0%float (width containerRect)
  /\ leq 0%float (height containerRect).

(** The caption lies inside the container box. *)
Definition inside (containerRect : DOMRect) (c : MemeCaption) : Prop :=
  leq 0%float (x c) /\ leq (x c) (width containerRect)
  /\ leq 0%float (y c) /\ leq (y c) (height containerRect).

End DragNotions.

Module CollectionNotions.

Import App.

(** The object literal [{ ...u1, ...u2 }] of two partial updates. *)
Definition mergeUpdates (u1 u2 : PartialCaption) : PartialCaption :=
  let later {A : Type} (a b : option A) : option A :=
    match b with Some v => Some v | None => a end in
  {| upd_id := later (upd_id u1) (upd_id u2);
     upd_text := later (upd_text u1) (upd_text u2);
     upd_x := later (upd_x u1) (upd_x u2);
     upd_y := later (upd_y u1) (upd_y u2);
     upd_color := later (upd_color u1) (upd_color u2);
     upd_fontSize := later (upd_fontSize u1) (upd_fontSize u2);
     upd_isDragging := later (upd_isDragging u1) (upd_isDragging u2) |}.

(** The selection points at a caption of the collection, or at nothing. *)
Definition selectionValid (s : State) : Prop :=
  match selectedCaptionId s with
  | Some i => In i (map id (captions s))
  | None => True
  end.

(** What a caption is and looks like, apart from where it is and whether
    it is being dragged. *)
Definition look (c : MemeCaption) : string * string * string * float :=
  (id c, text c, color c, fontSize c).

(** Where a caption is. *)
Definition place (c : MemeCaption) : float * float := (x c, y c).

(** What the export reads of a caption. *)
Definition printed (c : MemeCaption)
  : string * float * float * string * float :=
  (text c, x c, y c, color c, fontSize c).

(** No pointer-move over a mounted container among the events. *)
Definition noMove (evs : list MemeCanvas.PointerEvent) : bool :=
  forallb
    (fun ev =>
       match ev with
       | MemeCanvas.Move (Some _) _ => false
       | _ => true
       end)
    evs.

End CollectionNotions.

(* ================================================================== *)
(** ** The built-ins on sample values *)
(* ================================================================== *)

Module JsExamples.

Example toString_clock : Js.toString 1762041600000 = "1762041600000".
Proof. reflexivity. Qed.

Example toString_zero_and_negative :
  Js.toString 0 = "0" /\ Js.toString (-5) = "-5".
Proof. split; reflexivity. Qed.

Example trim_blanks :
  Js.trim "  make it  cyberpunk " = "make it  cyberpunk"
  /\ Js.trim "   " = "" /\ Js.trim "" = "".
Proof. repeat split. Qed.

Example trim_unicode_blanks :
  Js.trim Js.nbsp = ""
  /\ Js.trim (Js.byteOrderMark ++ " " ++ Js.emSpace ++ Js.lineSeparator
               ++ Js.ideographicSpace) = ""
  /\ Js.trim (Js.nbsp ++ "se" ++ Js.nbsp ++ "ra" ++ Js.ideographicSpace ++ " ")
     = "se" ++ Js.nbsp ++ "ra"
  /\ Js.trim (String "195" (String "160" " "))
     = String "195" (String "160" "").
Proof. repeat split. Qed.

Example split_commas :
  Js.split "," "data:image/png;base64,AAAA" = ["data:image/png;base64"; "AAAA"]
  /\ Js.split "," "a,,b" = ["a"; ""; "b"]
  /\ Js.split "," "no comma" = ["no comma"]
  /\ Js.split "," "" = [""].
Proof. repeat split. Qed.

Example startsWith_data :
  Js.startsWith "data:" "data:image/png;base64,AAAA" = true
  /\ Js.startsWith "data:" "https://i.imgflip.com/1ur9b0.jpg" = false.
Proof. split; reflexivity. Qed.

Example min_max_numbers :
  Js.min 1000%float 800%float = 800%float
  /\ Js.max 0%float (-20)%float = 0%float
  /\ Js.max 0%float (Js.min 12.5%float 800%float) = 12.5%float.
Proof. repeat split. Qed.

Example min_max_signed_zero :
  Js.is_neg_zero (-0)%float = true
  /\ Js.is_neg_zero 0%float = false
  /\ Js.is_neg_zero (Js.min 0%float (-0)%float) = true
  /\ Js.is_neg_zero (Js.min (-0)%float 0%float) = true
  /\ Js.is_neg_zero (Js.max (-0)%float 0%float) = false
  /\ Js.is_neg_zero (Js.max 0%float (-0)%float) = false.
Proof. repeat split. Qed.

Example min_max_nan :
  PrimFloat.is_nan (Js.min PrimFloat.nan 800%float) = true
  /\ PrimFloat.is_nan (Js.max 0%float PrimFloat.nan) = true.
Proof. split; reflexivity. Qed.

End JsExamples.

(* ================================================================== *)
(** ** Properties of the caption collection (App.tsx) *)
(* ================================================================== *)

Module AppFacts.

Import App.

(** The setters touch one cell each. *)
Lemma captions_setSelectedCaptionId v s :
  captions (setSelectedCaptionId v s) = captions s.
Proof. reflexivity. Qed.

Lemma captions_setCaptions f s : captions (setCaptions f s) = f (captions s).
Proof. reflexivity. Qed.

Lemma captions_addCaption now t s :
  captions (addCaption now t s)
  = (captions s ++ [newCaption (Js.toString now) t])%list.
Proof. reflexivity. Qed.

Lemma captions_updateCaption i u s :
  captions (updateCaption i u s) = updateCaptions i u (captions s).
Proof. reflexivity. Qed.

(** [toString] prints different integers differently. *)
Lemma to_int_not_nil (z : Z) :
  Z.to_int z <> Decimal.Pos Decimal.Nil /\ Z.to_int z <> Decimal.Neg Decimal.Nil.
Proof.
  destruct z as [|p|p]; simpl; split; try discriminate;
    intros [= H]; exact (DecimalPos.Unsigned.to_uint_nonnil p H).
Qed.

Lemma toString_inj (m n : Z) : Js.toString m = Js.toString n -> m = n.
Proof.
  unfold Js.toString. intros E.
  apply DecimalZ.to_int_inj.
  assert (P : forall z : Z,
             NilZero.int_of_string (NilZero.string_of_int (Z.to_int z))
             = Some (Z.to_int z)).
  { intros z. destruct (to_int_not_nil z). now apply NilZero.isi. }
  assert (Q := P m). rewrite E, P in Q. now injection Q.
Qed.

Lemma captions_addCaptions ops s :
  captions (addCaptions ops s)
  = (captions s
       ++ map (fun op => newCaption (Js.toString (fst op)) (snd op)) ops)%list.
Proof.
  unfold addCaptions. revert s.
  induction ops as [|op ops IH]; intros s; simpl.
  - now rewrite app_nil_r.
  - rewrite IH, captions_addCaption, <- app_assoc. reflexivity.
Qed.

Lemma ids_addCaptions ops s :
  map id (captions (addCaptions ops s))
  = (map id (captions s) ++ map Js.toString (map fst ops))%list.
Proof.
  rewrite captions_addCaptions, map_app, !map_map. reflexivity.
Qed.

(** C10.  [updateCaption id updates] keeps the length and the order of the
    collection: position by position, the caption is either untouched (its
    id differs from [id]) or merged with [updates] (its id is [id]); every
    other cell of the state is untouched; and when no caption carries [id]
    the collection is the one it was. *)
Theorem updateCaption_frame (i : string) (updates : PartialCaption)
    (s : State) :
  let s' := updateCaption i updates s in
  List.length (captions s') = List.length (captions s)
  /\ (forall n, nth_error (captions s') n
        = option_map
            (fun c => if String.eqb (id c) i then spread c updates else c)
            (nth_error (captions s) n))
  /\ (forall n c, nth_error (captions s) n = Some c -> id c <> i ->
        nth_error (captions s') n = Some c)
  /\ ((forall c, In c (captions s) -> id c <> i) -> captions s' = captions s)
  /\ (currentImage s', selectedCaptionId s', generatedCaptions s',
      appState s', editPrompt s', errorMsg s')
     = (currentImage s, selectedCaptionId s, generatedCaptions s,
        appState s, editPrompt s, errorMsg s).
Proof.
  cbv zeta. rewrite captions_updateCaption. unfold updateCaptions.
  repeat split.
  - apply length_map.
  - intros n. apply nth_error_map.
  - intros n c Hn Hc. rewrite nth_error_map, Hn. simpl.
    apply String.eqb_neq in Hc. now rewrite Hc.
  - intros Hno. rewrite <- (map_id (captions s)) at 2.
    apply map_ext_in. intros c Hc.
    specialize (Hno c Hc). apply String.eqb_neq in Hno. now rewrite Hno.
Qed.

(** The theorem at work on two captions: an update addressed to ["b"]
    leaves the caption ["a"] in place, and an update addressed to an id
    nobody carries changes nothing. *)
Lemma updateCaption_frame_witness :
  let a := newCaption "a" "TOP" in
  let b := newCaption "b" "BOTTOM" in
  let s := setCaptions (fun _ => [a; b]) initial in
  let u := mkPartial None (Some "EDITED") None None None None None in
  nth_error (captions (updateCaption "b" u s)) 0 = Some a
  /\ captions (updateCaption "zzz" u s) = captions s.
Proof.
  cbv zeta. split.
  - apply (updateCaption_frame "b"); [reflexivity | discriminate].
  - apply (updateCaption_frame "zzz").
    intros c [<- | [<- | []]]; discriminate.
Defined.

(** What the edit panel shows after [addCaption]: [selectedCaption] is the
    first caption carrying the selected id, so it is the new caption as
    long as the new id was not in use. *)
Lemma selectedCaption_addCaption (now : Z) (t : string) (s : State) :
  ~ In (Js.toString now) (map id (captions s)) ->
  selectedCaption (addCaption now t s)
  = Some (newCaption (Js.toString now) t).
Proof.
  unfold selectedCaption. simpl. intros Hfresh.
  induction (captions s) as [|c l IH]; simpl.
  - now rewrite String.eqb_refl.
  - destruct (String.eqb_spec (id c) (Js.toString now)) as [E|_].
    + exfalso. apply Hfresh. now left.
    + apply IH. intros H. apply Hfresh. now right.
Qed.

(** When the new id is in use, [find] stops at the older caption. *)
Lemma selectedCaption_addCaption_collision (now : Z) (t : string)
    (s : State) (old : MemeCaption) :
  find (fun k => String.eqb (id k) (Js.toString now)) (captions s) = Some old ->
  selectedCaption (addCaption now t s) = Some old.
Proof.
  unfold selectedCaption. simpl.
  induction (captions s) as [|c l IH]; simpl; [discriminate|].
  destruct (String.eqb (id c) (Js.toString now)); [trivial|exact IH].
Qed.

(** C8, as amended.  Adding a caption with the text "NEW TEXT" to a
    collection of N captions gives N+1 captions, the old ones first and in
    place; the new one carries the decimal form of the clock reading as
    its id, is at (300, 50), white, size 32, and its id is the selected
    id.  When no caption carried that id before, the selected caption (the
    one the edit panel shows) is the new caption; when one did, the
    selected caption is the oldest caption that carries it. *)
Theorem addCaption_new_text (now : Z) (s : State) :
  let s' := addCaption now "NEW TEXT" s in
  let c := {| id := Js.toString now; text := "NEW TEXT";
              x := 300%float; y := 50%float; color := "#FFFFFF";
              fontSize := 32%float; isDragging := None |} in
  captions s' = (captions s ++ [c])%list
  /\ List.length (captions s') = S (List.length (captions s))
  /\ selectedCaptionId s' = Some (Js.toString now)
  /\ (~ In (Js.toString now) (map id (captions s)) ->
        selectedCaption s' = Some c)
  /\ (forall old,
        find (fun k => String.eqb (id k) (Js.toString now)) (captions s)
        = Some old ->
        selectedCaption s' = Some old).
Proof.
  cbv zeta.
  change {| id := Js.toString now; text := "NEW TEXT";
            x := 300%float; y := 50%float; color := "#FFFFFF";
            fontSize := 32%float; isDragging := None |}
    with (newCaption (Js.toString now) "NEW TEXT").
  split; [apply captions_addCaption|].
  split; [rewrite captions_addCaption, length_app; apply Nat.add_1_r|].
  split; [reflexivity|].
  split.
  - apply selectedCaption_addCaption.
  - intros old. apply selectedCaption_addCaption_collision.
Qed.

(** The theorem at work: a second caption added to the session of
    scenario A, 450 ms after the first. *)
Lemma addCaption_new_text_witness :
  let s' := addCaption 1762041600450 "NEW TEXT"
              (Handlers.app Scenario.session) in
  let c := {| id := "1762041600450"; text := "NEW TEXT";
              x := 300%float; y := 50%float; color := "#FFFFFF";
              fontSize := 32%float; isDragging := None |} in
  captions s' = [Scenario.captionA; c]
  /\ selectedCaption s' = Some c.
Proof.
  cbv zeta.
  destruct (addCaption_new_text 1762041600450 (Handlers.app Scenario.session))
    as (Hcaps & _ & _ & Hsel & _).
  split; [exact Hcaps|].
  apply Hsel. simpl. intros [H | []]. discriminate H.
Defined.

(** C8, as stated, fails: when the clock reading is already the id of a
    caption, the new caption is appended but the selected caption is the
    older one. *)
Lemma addCaption_collision_selects_older :
  let old := {| id := "1762041600000"; text := "OLD";
                x := 10%float; y := 20%float; color := "#FF0000";
                fontSize := 48%float; isDragging := None |} in
  let s := setCaptions (fun _ => [old]) initial in
  let s' := addCaption 1762041600000 "NEW TEXT" s in
  captions s' = [old; newCaption "1762041600000" "NEW TEXT"]
  /\ selectedCaptionId s' = Some "1762041600000"
  /\ selectedCaption s' = Some old
  /\ selectedCaption s' <> Some (newCaption "1762041600000" "NEW TEXT").
Proof.
  cbv zeta. split; [reflexivity|]. split; [reflexivity|].
  split; [reflexivity|].
  intros H.
  assert (Ht : option_map text
                 (selectedCaption
                    (addCaption 1762041600000 "NEW TEXT"
                       (setCaptions
                          (fun _ => [{| id := "1762041600000"; text := "OLD";
                                        x := 10%float; y := 20%float;
                                        color := "#FF0000";
                                        fontSize := 48%float;
                                        isDragging := None |}]) initial)))
               = Some "NEW TEXT")
    by (rewrite H; reflexivity).
  discriminate Ht.
Qed.

(** C5, as amended.  Ids are clock readings, so they are pairwise distinct
    when the readings are: starting from a collection with distinct ids,
    after any number of add-caption actions made at pairwise distinct clock
    readings whose decimal forms are not already in use, and after every
    prefix of them, no two captions share an id. *)
Theorem addCaptions_ids_unique (ops : list (Z * string)) (s : State) :
  NoDup (map id (captions s)) ->
  NoDup (map fst ops) ->
  (forall now, In now (map fst ops) ->
     ~ In (Js.toString now) (map id (captions s))) ->
  forall k, NoDup (map id (captions (addCaptions (firstn k ops) s))).
Proof.
  intros Hs Hops Hfresh k.
  rewrite ids_addCaptions.
  assert (Hk : NoDup (map fst (firstn k ops))).
  { rewrite <- (firstn_skipn k ops), map_app in Hops.
    now apply NoDup_app_remove_r in Hops. }
  apply NoDup_app.
  - exact Hs.
  - apply Injective_map_NoDup; [|exact Hk].
    intros m n. apply toString_inj.
  - intros a Ha Hin. apply in_map_iff in Hin as (now & <- & Hnow).
    apply (Hfresh now); [|exact Ha].
    apply in_map_iff in Hnow as (op & <- & Hop).
    apply in_map. rewrite <- (firstn_skipn k ops).
    apply in_or_app. now left.
Qed.

(** The theorem at work: three captions added at three different
    milliseconds to the empty collection. *)
Lemma addCaptions_ids_unique_witness :
  NoDup (map id (captions
    (addCaptions [(1762041600000%Z, "NEW TEXT"); (1762041600001%Z, "NEW TEXT");
                  (1762041600450%Z, "ONE DOES NOT SIMPLY")] initial))).
Proof.
  apply (addCaptions_ids_unique
           [(1762041600000%Z, "NEW TEXT"); (1762041600001%Z, "NEW TEXT");
            (1762041600450%Z, "ONE DOES NOT SIMPLY")] initial
           (NoDup_nil _)) with (k := 3%nat).
  - simpl. repeat constructor; simpl; intuition discriminate.
  - intros now _ [].
Defined.

(** C5, as stated, fails: two add-caption actions that read the same
    millisecond off the clock give two captions with one id. *)
Lemma addCaptions_same_tick_duplicate_id :
  ~ NoDup (map id (captions
      (addCaptions [(1762041600000%Z, "NEW TEXT"); (1762041600000%Z, "NEW TEXT")]
         initial))).
Proof.
  rewrite ids_addCaptions. simpl. intros H.
  inversion H as [|a l Hin _]. apply Hin. now left.
Qed.

End AppFacts.

(* ================================================================== *)
(** ** Properties of the asynchronous handlers (App.tsx) *)
(* ================================================================== *)

Module HandlerFacts.

Import App Handlers HandlerNotions.

(** X24.  An image-edit request is made only with an image and a
    non-blank prompt; otherwise the handler returns at once and nothing
    changes. *)
Lemma handleImageEdit_guard edit (w : World) :
  Js.truthy (currentImage (app w)) = false
  \/ Js.truthy (Some (Js.trim (editPrompt (app w)))) = false ->
  handleImageEdit edit w = (Resolved tt, w).
Proof.
  unfold handleImageEdit, Task.bind, Task.get, Task.ret.
  destruct (currentImage (app w)) as [img|]; [|reflexivity].
  intros [H|H]; rewrite H; simpl; [reflexivity|].
  now rewrite orb_true_r.
Qed.

(** C6.  Once an image-edit request is made (there is an image and the
    prompt is not blank), the handler itself never throws and leaves the
    request status at [IDLE] however the collaborator ended; and when the
    collaborator rejected, the background image and the captions are the
    ones from before the request and the error cell holds the one message
    of this handler. *)
Theorem handleImageEdit_failure
    (edit : string -> string -> Task Log string) (w : World) (img : string) :
  currentImage (app w) = Some img ->
  Js.truthy (Some img) = true ->
  Js.truthy (Some (Js.trim (editPrompt (app w)))) = true ->
  let w' := snd (handleImageEdit edit w) in
  fst (handleImageEdit edit w) = Resolved tt
  /\ appState (app w') = IDLE
  /\ (forall e,
        fst (edit img (editPrompt (app w)) (log w)) = Rejected e ->
        currentImage (app w') = currentImage (app w)
        /\ captions (app w') = captions (app w)
        /\ errorMsg (app w')
           = Some "Failed to edit image. The prompt might be too complex or blocked.").
Proof.
  intros Himg Ht Hp. cbv zeta.
  unfold handleImageEdit, Task.bind, Task.get, Task.ret.
  rewrite Himg, Ht, Hp. simpl.
  unfold Task.try_finally, Task.try_catch, call, Task.zoom, set,
    Task.modify, Task.bind. simpl.
  destruct (edit img (editPrompt (app w)) (log w)) as [[v|e] l]; simpl.
  - split; [reflexivity|split; [reflexivity|]].
    intros e He. discriminate He.
  - split; [reflexivity|split; [reflexivity|]].
    intros _ _. rewrite Himg. repeat split.
Qed.

(** X25.  The success side of the same handler: the new image replaces
    the old one, the prompt is cleared, no message is set, the captions
    stay. *)
Lemma handleImageEdit_success
    (edit : string -> string -> Task Log string) (w : World) (img v : string) :
  currentImage (app w) = Some img ->
  Js.truthy (Some img) = true ->
  Js.truthy (Some (Js.trim (editPrompt (app w)))) = true ->
  fst (edit img (editPrompt (app w)) (log w)) = Resolved v ->
  let w' := snd (handleImageEdit edit w) in
  currentImage (app w') = Some v
  /\ captions (app w') = captions (app w)
  /\ editPrompt (app w') = ""
  /\ errorMsg (app w') = None
  /\ appState (app w') = IDLE.
Proof.
  intros Himg Ht Hp Hv. cbv zeta.
  unfold handleImageEdit, Task.bind, Task.get, Task.ret.
  rewrite Himg, Ht, Hp. simpl.
  unfold Task.try_finally, Task.try_catch, call, Task.zoom, set,
    Task.modify, Task.bind. simpl.
  destruct (edit img (editPrompt (app w)) (log w)) as [[v'|e] l];
    simpl in *; [|discriminate].
  injection Hv as ->. repeat split.
Qed.

(** The download action turns a failed export into its error message. *)
Lemma handleDownload_reports_failure (dom : MemeCanvas.Dom) (now : Z)
    (w : World) :
  exportFails dom (captions (app w)) ->
  let w' := snd (handleDownload (Some dom) now w) in
  errorMsg (app w') = Some "Failed to download meme."
  /\ fst (handleDownload (Some dom) now w) = Resolved tt.
Proof.
  intros H. cbv zeta.
  unfold handleDownload, exportBlob, Task.try_catch, Task.bind, Task.get,
    Task.await, Task.throw, call, Task.zoom, set, Task.modify.
  destruct H as [-> | [e ->]]; simpl; split; reflexivity.
Qed.

(** The share action does not: after a failed export the component's state
    is exactly what it was (the error cell included); the failure only
    reaches the console. *)
Lemma handleShare_swallows_failure (dom : MemeCanvas.Dom)
    (navigator : Navigator) (now : Z) (w : World) :
  exportFails dom (captions (app w)) ->
  let w' := snd (handleShare (Some dom) navigator now w) in
  app w' = app w
  /\ (exists msg, log w' = (log w ++ [ConsoleError msg])%list)
  /\ fst (handleShare (Some dom) navigator now w) = Resolved tt.
Proof.
  intros H. cbv zeta.
  unfold handleShare, exportBlob, Task.try_catch, Task.bind, Task.get,
    Task.await, Task.throw, call, Task.zoom, tell, Task.modify.
  destruct H as [-> | [e ->]]; simpl;
    (split; [now destruct w|split; [eexists; reflexivity|reflexivity]]).
Qed.

(** The theorem at work: the model answers without an image part, so the
    edit collaborator rejects; the session ends idle, with its image and
    caption as before and the handler's message in the error cell. *)
Lemma handleImageEdit_failure_witness :
  let edit := GeminiService.editMemeImage Scenario.offline Scenario.textOnlyModel in
  let w' := snd (handleImageEdit edit Scenario.session) in
  appState (app w') = IDLE
  /\ currentImage (app w') = Some "data:image/png;base64,iVBORw0KGgo="
  /\ captions (app w') = [Scenario.captionA]
  /\ errorMsg (app w')
     = Some "Failed to edit image. The prompt might be too complex or blocked.".
Proof.
  cbv zeta.
  destruct (handleImageEdit_failure
              (GeminiService.editMemeImage Scenario.offline Scenario.textOnlyModel)
              Scenario.session "data:image/png;base64,iVBORw0KGgo="
              eq_refl eq_refl eq_refl) as (_ & Hidle & Hfail).
  destruct (Hfail "No image generated in response" eq_refl) as (Hi & Hc & He).
  repeat split; assumption.
Defined.

(** C7 on the code: with no drawing surface the export resolves to [null];
    the download action then sets its message, while the share action
    leaves the error cell empty and only writes to the console. *)
Theorem handleShare_failure_not_reported :
  let w := Scenario.session in
  MemeCanvas.generateMemeBlob Scenario.domNoContext (captions (app w))
    = Resolved None
  /\ errorMsg (app (snd (handleDownload (Some Scenario.domNoContext)
                           1762041600000%Z w)))
     = Some "Failed to download meme."
  /\ errorMsg (app (snd (handleShare (Some Scenario.domNoContext)
                           Scenario.sharingNavigator 1762041600000%Z w)))
     = None
  /\ log (snd (handleShare (Some Scenario.domNoContext)
                 Scenario.sharingNavigator 1762041600000%Z w))
     = [ConsoleError "Share failed: Could not generate image"].
Proof. cbv zeta. repeat split. Qed.

(** The same with a tainted canvas, where the export rejects. *)
Lemma handleShare_rejection_not_reported :
  let w := Scenario.session in
  MemeCanvas.generateMemeBlob Scenario.domTainted (captions (app w))
    = Rejected "SecurityError: Tainted canvases may not be exported."
  /\ errorMsg (app (snd (handleDownload (Some Scenario.domTainted)
                           1762041600000%Z w)))
     = Some "Failed to download meme."
  /\ errorMsg (app (snd (handleShare (Some Scenario.domTainted)
                           Scenario.sharingNavigator 1762041600000%Z w)))
     = None.
Proof. cbv zeta. repeat split. Qed.

End HandlerFacts.

(* ================================================================== *)
(** ** Properties of the image normalisation (geminiService.ts) *)
(* ================================================================== *)

Module ServiceFacts.

Import GeminiService ServiceNotions.

(** Splitting at commas. *)
Lemma split_no_comma (s : string) :
  Js.includes "," s = false -> Js.split "," s = [s].
Proof.
  induction s as [|c r IH]; simpl; [reflexivity|].
  intros H. apply orb_false_elim in H as [Hc Hr].
  rewrite Hc, (IH Hr). reflexivity.
Qed.

Lemma split_at_first_comma (pre rest : string) :
  Js.includes "," pre = false ->
  Js.split "," (pre ++ String "," rest) = pre :: Js.split "," rest.
Proof.
  induction pre as [|c r IH]; simpl; intros H; [reflexivity|].
  apply orb_false_elim in H as [Hc Hr].
  rewrite Hc, (IH Hr). reflexivity.
Qed.

Lemma includes_app (c : ascii) (s t : string) :
  Js.includes c (s ++ t) = Js.includes c s || Js.includes c t.
Proof.
  induction s as [|d r IH]; simpl; [reflexivity|].
  now rewrite IH, orb_assoc.
Qed.

Lemma includes_comma_cons (s : string) : Js.includes "," ("," ++ s) = true.
Proof. reflexivity. Qed.

(** [base64ToGenerativePart] never returns [undefined]. *)
Lemma base64ToGenerativePart_defined (s : string) :
  exists v, base64ToGenerativePart s = Some v.
Proof.
  unfold base64ToGenerativePart, afterComma.
  destruct (Js.includes "," s) eqn:E; [|now exists s].
  induction s as [|c r IH]; simpl in *; [discriminate|].
  destruct (Ascii.eqb c ",") eqn:Ec; simpl in E.
  - destruct r as [|d r']; simpl.
    + now exists "".
    + destruct (Ascii.eqb d ","); [now exists ""|].
      destruct (Js.split "," r') as [|h t]; eexists; reflexivity.
  - destruct (IH E) as [v Hv].
    destruct (Js.split "," r) as [|h t]; [discriminate|].
    exists v. exact Hv.
Qed.

(** A data URL [data:<meta>,<payload>] whose parts hold no further comma
    is reduced to its payload. *)
Lemma base64ToGenerativePart_data_url (meta payload : string) :
  Js.includes "," meta = false ->
  Js.includes "," payload = false ->
  base64ToGenerativePart ("data:" ++ meta ++ "," ++ payload) = Some payload.
Proof.
  intros Hm Hp. unfold base64ToGenerativePart, afterComma.
  assert (Hpre : Js.includes "," ("data:" ++ meta) = false)
    by (rewrite includes_app, Hm; reflexivity).
  replace ("data:" ++ meta ++ "," ++ payload)
    with (("data:" ++ meta) ++ String "," payload) by reflexivity.
  rewrite includes_app, Hpre. cbn [Js.includes orb].
  rewrite Ascii.eqb_refl. cbn [orb].
  rewrite (split_at_first_comma _ _ Hpre), (split_no_comma payload Hp).
  reflexivity.
Qed.

Ltac run_task :=
  unfold resolveImageInput, fetchAndConvert, canvasFallback,
    fileToGenerativePart, Task.try_catch, Task.bind, Task.await, Task.ret,
    Task.throw, tell, Task.modify.

Lemma direct_failure_runs_fallback (p : Platform) (input : string) (log : Log) :
  directFails p input ->
  exists e l,
    fetchAndConvert p input log = (Rejected e, l)
    /\ (l = log ++ [Fetch input]
        \/ exists b, l = log ++ [Fetch input; ReadAsDataURL b])%list.
Proof.
  assert (Fin : forall e (l : Log),
            (l = log ++ [Fetch input]
             \/ exists b, l = log ++ [Fetch input; ReadAsDataURL b])%list ->
            exists e' l',
              (@Rejected (option string) e, l) = (Rejected e', l')
              /\ (l' = log ++ [Fetch input]
                  \/ exists b, l' = log ++ [Fetch input; ReadAsDataURL b])%list)
    by (intros e l H; exists e, l; split; [reflexivity|exact H]).
  unfold fetchAndConvert, fileToGenerativePart, Task.bind, Task.await,
    Task.ret, Task.throw, tell, Task.modify.
  intros [[e He] | (r & Hr & [Hok | [[e He] | (b & Hb & Hread)]])]; simpl.
  - rewrite He. apply Fin. now left.
  - rewrite Hr, Hok. simpl. apply Fin. now left.
  - rewrite Hr, He. destruct (ok r); simpl; apply Fin; now left.
  - rewrite Hr, Hb. destruct (ok r); simpl; [|apply Fin; now left].
    rewrite <- app_assoc. simpl.
    destruct Hread as [[ev ->] | ->]; simpl; apply Fin; right; now exists b.
Qed.

(** What the two paths write to the log. *)
Lemma fetchAndConvert_log (p : Platform) (input : string) (log : Log) :
  exists l, snd (fetchAndConvert p input log) = (log ++ Fetch input :: l)%list.
Proof.
  unfold fetchAndConvert, fileToGenerativePart, Task.bind, Task.await,
    Task.ret, Task.throw, tell, Task.modify. simpl.
  destruct (fetch p input) as [resp|e]; simpl; [|now exists []].
  destruct (ok resp); simpl; [|now exists []].
  destruct (blob resp) as [b|e]; simpl; [|now exists []].
  exists [ReadAsDataURL b]. rewrite <- app_assoc. simpl.
  destruct (readAsDataURL p b) as [ev|[|c res]]; reflexivity.
Qed.

Lemma canvasFallback_log (p : Platform) (input : string) (e : Error)
    (l : Log) :
  snd (canvasFallback p input e l)
  = (l ++ [ConsoleWarn
             ("Fetch failed, trying canvas fallback for CORS images... " ++ e);
           LoadImage input])%list.
Proof.
  unfold canvasFallback, Task.bind, Task.ret, Task.throw, tell, Task.modify.
  cbn [fst snd]. rewrite <- app_assoc. cbn [app].
  destruct (loadImage p input) as [img|]; [|reflexivity].
  destruct (canvasContext p); [|reflexivity].
  destruct (toDataURL p img); reflexivity.
Qed.

(** What follows the first comma. *)
Lemma afterComma_pair (meta payload : string) :
  Js.includes "," meta = false ->
  Js.includes "," payload = false ->
  afterComma (meta ++ "," ++ payload) = Some payload.
Proof.
  intros Hm Hp. unfold afterComma.
  replace (meta ++ "," ++ payload) with (meta ++ String "," payload)
    by reflexivity.
  now rewrite (split_at_first_comma _ _ Hm), (split_no_comma payload Hp).
Qed.

Lemma afterComma_no_comma (s : string) :
  Js.includes "," s = false -> afterComma s = None.
Proof.
  intros H. unfold afterComma. now rewrite (split_no_comma s H).
Qed.

Lemma base64ToGenerativePart_pair (meta payload : string) :
  Js.includes "," meta = false ->
  Js.includes "," payload = false ->
  base64ToGenerativePart (meta ++ "," ++ payload) = Some payload.
Proof.
  intros Hm Hp. unfold base64ToGenerativePart.
  rewrite includes_app, includes_comma_cons, orb_true_r.
  now apply afterComma_pair.
Qed.

(** C9, as amended.  [resolveImageInput] on any input string.

    - A [data:] input is answered from the string alone: no call leaves
      the program and the answer is never [undefined].  For a data URL
      [data:<meta>,<payload>] the answer is the payload; a [data:] input
      with no comma is returned as it is, prefix included.
    - Any other input is fetched first.  If the fetch and the conversion
      succeed, the answer is what stands between the first and the second
      comma of the file reader's result: the payload of a data URL
      [<meta>,<payload>], and [undefined] when the result has no comma.
    - If that direct path fails at any step, the canvas path is taken
      next (the image is loaded); when the canvas reads back, the answer is
      its data URL stripped of the prefix, and when the canvas path fails
      too, the promise rejects. *)
Theorem resolveImageInput_two_paths (p : Platform) (input : string)
    (log : Log) :
  let r := resolveImageInput p input log in
  (Js.startsWith "data:" input = true ->
     r = (Resolved (base64ToGenerativePart input), log)
     /\ (exists v, base64ToGenerativePart input = Some v)
     /\ (forall meta payload,
           input = "data:" ++ meta ++ "," ++ payload ->
           Js.includes "," meta = false ->
           Js.includes "," payload = false ->
           fst r = Resolved (Some payload))
     /\ (Js.includes "," input = false -> fst r = Resolved (Some input)))
  /\ (Js.startsWith "data:" input = false ->
        (exists rest, snd r = (log ++ Fetch input :: rest)%list)
        /\ (forall result, directReads p input result ->
              (exists b,
                 r = (Resolved (afterComma result),
                      (log ++ [Fetch input; ReadAsDataURL b])%list))
              /\ (forall meta payload,
                    result = meta ++ "," ++ payload ->
                    Js.includes "," meta = false ->
                    Js.includes "," payload = false ->
                    fst r = Resolved (Some payload))
              /\ (Js.includes "," result = false -> fst r = Resolved None))
        /\ (directFails p input ->
              (exists l m,
                 snd r = (log ++ Fetch input :: l
                            ++ [ConsoleWarn m; LoadImage input])%list)
              /\ (forall dataUrl, fallbackReads p input dataUrl ->
                    fst r = Resolved (base64ToGenerativePart dataUrl)
                    /\ (forall meta payload,
                          dataUrl = meta ++ "," ++ payload ->
                          Js.includes "," meta = false ->
                          Js.includes "," payload = false ->
                          fst r = Resolved (Some payload)))
              /\ (fallbackFails p input -> exists e, fst r = Rejected e))).
Proof.
  cbv zeta. split.
  - intros Hd. unfold resolveImageInput. rewrite Hd.
    unfold Task.ret. split; [reflexivity|split; [|split]].
    + apply base64ToGenerativePart_defined.
    + intros meta payload -> Hm Hp. cbn [fst].
      now rewrite base64ToGenerativePart_data_url.
    + intros Hno. cbn [fst]. unfold base64ToGenerativePart. now rewrite Hno.
  - intros Hd. unfold resolveImageInput. rewrite Hd. split; [|split].
    + destruct (fetchAndConvert_log p input log) as [l Hl].
      unfold Task.try_catch.
      destruct (fetchAndConvert p input log) as [[v|e] l'] eqn:Hrun;
        cbn [snd] in Hl; subst l'.
      * now exists l.
      * rewrite canvasFallback_log, <- app_assoc. cbn [app].
        eexists; reflexivity.
    + intros result (resp & b & Hf & Hok & Hb & Hread & Ht).
      assert (Hrun : Task.try_catch (fetchAndConvert p input)
                       (canvasFallback p input) log
                     = (Resolved (afterComma result),
                        (log ++ [Fetch input; ReadAsDataURL b])%list)).
      { run_task. cbn [fst snd]. rewrite Hf. cbn [negb].
        rewrite Hok. cbn [negb]. rewrite Hb. cbn [fst snd].
        rewrite Hread, Ht. now rewrite <- app_assoc. }
      rewrite Hrun. cbn [fst]. split; [now exists b|split].
      * intros meta payload -> Hm Hp. now rewrite afterComma_pair.
      * intros Hno. now rewrite afterComma_no_comma.
    + intros Hfail.
      destruct (direct_failure_runs_fallback p input log Hfail)
        as (e & l & Hrun & Hl).
      unfold Task.try_catch. rewrite Hrun.
      assert (Hl' : exists l0, l = (log ++ Fetch input :: l0)%list).
      { destruct Hl as [-> | [b ->]].
        - now exists [].
        - now exists [ReadAsDataURL b]. }
      destruct Hl' as [l0 ->].
      split; [|split].
      * exists l0. eexists.
        rewrite canvasFallback_log, <- app_assoc. cbn [app]. reflexivity.
      * intros dataUrl (img & Hload & Hctx & Hurl).
        unfold canvasFallback, Task.bind, Task.ret, Task.throw, tell,
          Task.modify. cbn [fst snd].
        rewrite Hload, Hctx, Hurl. cbn [fst]. split; [reflexivity|].
        intros meta payload -> Hm Hp.
        now rewrite base64ToGenerativePart_pair.
      * unfold canvasFallback, Task.bind, Task.ret, Task.throw, tell,
          Task.modify. cbn [fst snd].
        intros [Hload | [Hctx | (img & e' & Hload & Hurl)]].
        -- rewrite Hload. eexists; reflexivity.
        -- rewrite Hctx. destruct (loadImage p input); eexists; reflexivity.
        -- rewrite Hload, Hurl. destruct (canvasContext p);
             eexists; reflexivity.
Qed.

(** The theorem at work on a template URL and on an uploaded image: with
    no network and no canvas the promise rejects; with the fetch blocked
    but a readable canvas the answer is the canvas payload; a data URL is
    answered without any call; a fetched image is answered with the
    payload of the file reader's data URL. *)
Lemma resolveImageInput_two_paths_witness :
  (exists e,
     fst (resolveImageInput Scenario.offline
            "https://i.imgflip.com/1ur9b0.jpg" []) = Rejected e)
  /\ fst (resolveImageInput Scenario.corsBlocked
            "https://i.imgflip.com/1ur9b0.jpg" []) = Resolved (Some "Q0FOVkFT")
  /\ resolveImageInput Scenario.offline
       "data:image/png;base64,iVBORw0KGgo=" []
     = (Resolved (Some "iVBORw0KGgo="), [])
  /\ (exists b,
        resolveImageInput Scenario.online
          "https://i.imgflip.com/1ur9b0.jpg" []
        = (Resolved (Some "UE5H"),
           [Fetch "https://i.imgflip.com/1ur9b0.jpg"; ReadAsDataURL b])).
Proof.
  split; [|split; [|split]].
  - destruct (resolveImageInput_two_paths Scenario.offline
                "https://i.imgflip.com/1ur9b0.jpg" []) as [_ H].
    destruct (H eq_refl) as (_ & _ & Hfail).
    destruct Hfail as (_ & _ & Hrej).
    + left. now exists "TypeError: Failed to fetch".
    + apply Hrej. now left.
  - destruct (resolveImageInput_two_paths Scenario.corsBlocked
                "https://i.imgflip.com/1ur9b0.jpg" []) as [_ H].
    destruct (H eq_refl) as (_ & _ & Hfail).
    destruct Hfail as (_ & Hread & _).
    + left. now exists "TypeError: Failed to fetch".
    + destruct (Hread "data:image/png;base64,Q0FOVkFT") as [_ Hpay].
      * exists (mkPicture 500%float 500%float). repeat split.
      * apply (Hpay "data:image/png;base64" "Q0FOVkFT"); reflexivity.
  - destruct (resolveImageInput_two_paths Scenario.offline
                "data:image/png;base64,iVBORw0KGgo=" []) as [H _].
    destruct (H eq_refl) as (Hr & _ & _). exact Hr.
  - destruct (resolveImageInput_two_paths Scenario.online
                "https://i.imgflip.com/1ur9b0.jpg" []) as [_ H].
    destruct (H eq_refl) as (_ & Hdirect & _).
    destruct (Hdirect "data:image/png;base64,UE5H") as [Hex _];
      [|exact Hex].
    exists (mkResponse true "OK" (Resolved Scenario.png)), Scenario.png.
    repeat split.
Defined.

(** C9, as stated, fails: the answer is not raw base64 for every input.
    A [data:] input with no comma comes back with its prefix, and a
    fetched body whose file reader ends with a result that has no comma
    (an empty body reads as [data:]) is answered with [undefined], with no
    fallback and no rejection. *)
Lemma resolveImageInput_not_always_base64 :
  resolveImageInput Scenario.offline "data:abc" []
  = (Resolved (Some "data:abc"), [])
  /\ Js.startsWith "data:" "data:abc" = true
  /\ resolveImageInput Scenario.emptyBody "https://i.imgflip.com/1ur9b0.jpg" []
     = (Resolved None,
        [Fetch "https://i.imgflip.com/1ur9b0.jpg";
         ReadAsDataURL (mkBlob "" "")]).
Proof. repeat split. Qed.

End ServiceFacts.

(* ================================================================== *)
(** ** Properties of the export (MemeCanvas.tsx, generateMemeBlob) *)
(* ================================================================== *)

Module ExportFacts.

Import MemeCanvas ExportNotions.

Lemma drawCaption_spec scale offsetX offsetY (c : Canvas) (cap : MemeCaption) :
  aligned c ->
  let c' := drawCaption scale offsetX offsetY c cap in
  drawn c' = (drawn c ++ captionOps scale offsetX offsetY cap)%list
  /\ ctx c' = fillState scale cap
  /\ aligned c'
  /\ canvas_width c' = canvas_width c /\ canvas_height c' = canvas_height c.
Proof.
  destruct c as [w h k ops]. destruct k. unfold aligned.
  cbn [ctx textAlign textBaseline]. intros [-> ->].
  cbv [drawCaption strokeText fillText draw set_font set_fillStyle
       set_strokeStyle set_lineWidth set_shadowColor set_shadowBlur
       set_shadowOffsetX set_shadowOffsetY with_ctx captionOps strokeState
       fillState drawn ctx canvas_width canvas_height font fillStyle
       strokeStyle lineWidth shadowColor shadowBlur shadowOffsetX
       shadowOffsetY textAlign textBaseline].
  rewrite <- app_assoc. repeat split.
Qed.

Lemma fold_drawCaption_drawn scale offsetX offsetY captions :
  forall c : Canvas,
    aligned c ->
    drawn (fold_left (drawCaption scale offsetX offsetY) captions c)
    = (drawn c ++ flat_map (captionOps scale offsetX offsetY) captions)%list.
Proof.
  induction captions as [|cap rest IH]; intros c Hc; cbn [fold_left flat_map].
  - now rewrite app_nil_r.
  - destruct (drawCaption_spec scale offsetX offsetY c cap Hc)
      as (Hd & _ & Hal & _).
    rewrite (IH _ Hal), Hd, <- app_assoc. reflexivity.
Qed.

(** Everything the export draws: the image at the origin, then for each
    caption, in collection order, its stroke and its fill. *)
Lemma compose_drawn (img : HTMLImageElement) (containerRect : DOMRect)
    (captions : list MemeCaption) :
  drawn (compose img containerRect captions)
  = DrawImage img 0%float 0%float
      :: flat_map
           (captionOps (exportScale img) (exportOffsetX img containerRect)
              (exportOffsetY img containerRect))
           captions.
Proof.
  unfold compose. rewrite fold_drawCaption_drawn; [reflexivity|].
  split; reflexivity.
Qed.

(** X26.  The canvas has the natural size of the image, whatever the
    container and the captions. *)
Lemma compose_size (img : HTMLImageElement) (containerRect : DOMRect)
    (captions : list MemeCaption) :
  canvas_width (compose img containerRect captions) = naturalWidth img
  /\ canvas_height (compose img containerRect captions) = naturalHeight img.
Proof.
  unfold compose.
  set (c0 := set_textBaseline _ _).
  assert (H0 : aligned c0 /\ canvas_width c0 = naturalWidth img
               /\ canvas_height c0 = naturalHeight img)
    by (repeat split).
  revert H0. generalize c0. clear c0.
  induction captions as [|cap rest IH]; intros c (Ha & Hw & Hh);
    cbn [fold_left]; [now split|].
  destruct (drawCaption_spec (exportScale img)
              (exportOffsetX img containerRect)
              (exportOffsetY img containerRect) c cap Ha)
    as (_ & _ & Hal & Hw' & Hh').
  apply IH. repeat split; try apply Hal; congruence.
Qed.

(** With an image, a container and a 2D context, what is handed to the
    encoder is the composed canvas. *)
Lemma generateMemeBlob_encodes (dom : Dom) (img : HTMLImageElement)
    (containerRect : DOMRect) (captions : list MemeCaption) :
  imgRef dom = Some img ->
  containerRef dom = Some containerRect ->
  getContext2d dom = true ->
  generateMemeBlob dom captions
  = toBlob dom (compose img containerRect captions).
Proof.
  intros Hi Hc Hg. unfold generateMemeBlob. now rewrite Hi, Hc, Hg.
Qed.

(** C1.  In every export that reaches the drawing stage, each caption
    gives exactly two text calls, its stroke and then its fill, both
    anchored at [((x - offsetX) * scale, (y - offsetY) * scale)], where
    [scale] is the natural width over the displayed width and the offsets
    are the image's top-left minus the container's; the captions come in
    collection order after the image.  In scenario A (1600 by 1200 shown at
    800 by 600, no offset) the scale is 2 and the display point (400, 300)
    lands on (800, 600). *)
Theorem export_maps_anchor :
  (forall (dom : Dom) (img : HTMLImageElement) (containerRect : DOMRect)
          (captions : list MemeCaption),
     imgRef dom = Some img ->
     containerRef dom = Some containerRect ->
     getContext2d dom = true ->
     let scale := (naturalWidth img / width (imgRect img))%float in
     let offsetX := (left (imgRect img) - left containerRect)%float in
     let offsetY := (top (imgRect img) - top containerRect)%float in
     let canvas := compose img containerRect captions in
     generateMemeBlob dom captions = toBlob dom canvas
     /\ map textAnchor (drawn canvas)
        = None
            :: flat_map
                 (fun cap =>
                    let natural :=
                      Some (text cap,
                            ((x cap - offsetX) * scale)%float,
                            ((y cap - offsetY) * scale)%float) in
                    [natural; natural])
                 captions)
  /\ (exportScale Scenario.imageA = 2%float
      /\ exportOffsetX Scenario.imageA Scenario.containerA = 0%float
      /\ exportOffsetY Scenario.imageA Scenario.containerA = 0%float
      /\ map textAnchor
           (drawn (compose Scenario.imageA Scenario.containerA
                     [Scenario.captionA]))
         = [None;
            Some ("ONE DOES NOT SIMPLY", 800%float, 600%float);
            Some ("ONE DOES NOT SIMPLY", 800%float, 600%float)]).
Proof.
  split.
  - intros dom img containerRect captions Hi Hc Hg. cbv zeta. split.
    + now apply generateMemeBlob_encodes.
    + rewrite compose_drawn. cbn [map textAnchor]. f_equal.
      unfold exportScale, exportOffsetX, exportOffsetY.
      induction captions as [|cap rest IH]; [reflexivity|].
      cbn [flat_map]. rewrite map_app, IH. reflexivity.
  - split; [reflexivity|split; [reflexivity|split; [reflexivity|]]].
    rewrite compose_drawn. reflexivity.
Qed.

(** The theorem at work on the page of scenario A: the export hands the
    encoder a canvas whose two text calls are anchored at (800, 600). *)
Lemma export_maps_anchor_witness :
  generateMemeBlob Scenario.domA [Scenario.captionA]
  = toBlob Scenario.domA
      (compose Scenario.imageA Scenario.containerA [Scenario.captionA])
  /\ map textAnchor
       (drawn (compose Scenario.imageA Scenario.containerA
                 [Scenario.captionA]))
     = [None;
        Some ("ONE DOES NOT SIMPLY", 800%float, 600%float);
        Some ("ONE DOES NOT SIMPLY", 800%float, 600%float)].
Proof.
  exact (proj1 export_maps_anchor Scenario.domA Scenario.imageA
           Scenario.containerA [Scenario.captionA] eq_refl eq_refl eq_refl).
Defined.

(** The two passes of a caption, in every export: the stroke comes first
    and is drawn with the shadow colour, a blur of [4 * scale] and a
    downward offset of [2 * scale]; the fill comes right after it, with
    the blur at 0 and the shadow colour and offset as they were. *)
Lemma export_passes (img : HTMLImageElement) (containerRect : DOMRect)
    (before after : list MemeCaption) (cap : MemeCaption) :
  let scale := exportScale img in
  exists (stroke fill : Context2D) (px py : float)
         (earlier later : list DrawOp),
    drawn (compose img containerRect (before ++ cap :: after))
    = (earlier ++ StrokeText stroke (text cap) px py
               :: FillText fill (text cap) px py :: later)%list
    /\ List.length earlier = S (2 * List.length before)
    /\ (shadowColor stroke, shadowBlur stroke,
        shadowOffsetX stroke, shadowOffsetY stroke)
       = ("rgba(0,0,0,0.8)", (4 * scale)%float, 0%float, (2 * scale)%float)
    /\ (shadowColor fill, shadowBlur fill,
        shadowOffsetX fill, shadowOffsetY fill)
       = ("rgba(0,0,0,0.8)", 0%float, 0%float, (2 * scale)%float).
Proof.
  cbv zeta. rewrite compose_drawn, flat_map_app. cbn [flat_map].
  set (ops := captionOps (exportScale img) (exportOffsetX img containerRect)
                (exportOffsetY img containerRect)).
  exists (strokeState (exportScale img) cap), (fillState (exportScale img) cap).
  do 2 eexists.
  exists (DrawImage img 0%float 0%float :: flat_map ops before),
         (flat_map ops after).
  split; [reflexivity|split; [|split; reflexivity]].
  cbn [List.length]. f_equal.
  induction before as [|c l IH]; [reflexivity|].
  cbn [flat_map List.length]. rewrite length_app, IH. cbn [ops captionOps List.length].
  lia.
Qed.

(** C2 on the code, in scenario A: the stroke is drawn before the fill and
    carries the soft shadow, but at the fill only the blur is back to 0;
    the shadow colour is still the semi-transparent black and the shadow is
    still offset downward by [2 * scale] = 4 pixels. *)
Theorem export_fill_keeps_shadow_offset :
  exists stroke fill : Context2D,
    drawn (compose Scenario.imageA Scenario.containerA [Scenario.captionA])
    = [DrawImage Scenario.imageA 0%float 0%float;
       StrokeText stroke "ONE DOES NOT SIMPLY" 800%float 600%float;
       FillText fill "ONE DOES NOT SIMPLY" 800%float 600%float]
    /\ (shadowColor stroke, shadowBlur stroke,
        shadowOffsetX stroke, shadowOffsetY stroke)
       = ("rgba(0,0,0,0.8)", 8%float, 0%float, 4%float)
    /\ (shadowColor fill, shadowBlur fill,
        shadowOffsetX fill, shadowOffsetY fill)
       = ("rgba(0,0,0,0.8)", 0%float, 0%float, 4%float)
    /\ (shadowOffsetY fill =? 0)%float = false.
Proof.
  exists (strokeState 2%float Scenario.captionA),
         (fillState 2%float Scenario.captionA).
  rewrite compose_drawn. repeat split.
Qed.

End ExportFacts.

(* ================================================================== *)
(** ** Properties of [Math.min] and [Math.max] on binary64 numbers *)
(* ================================================================== *)

Module NumberFacts.

Import NumberNotions.

(** The comparison of the specification floats is antisymmetric,
    reflexive away from [NaN], and defined exactly away from [NaN]. *)
Lemma SFcompare_antisym (a b : spec_float) :
  SFcompare b a = option_map CompOpp (SFcompare a b).
Proof.
  destruct a as [sa|sa| |sa ma ea], b as [sb|sb| |sb mb eb]; simpl;
    try reflexivity;
    try (destruct sa; reflexivity); try (destruct sb; reflexivity);
    try (destruct sa, sb; reflexivity).
  destruct sa, sb; try reflexivity; f_equal;
    rewrite (Z.compare_antisym ea eb);
    destruct (ea ?= eb)%Z; simpl; try reflexivity;
    rewrite (Pos.compare_cont_antisym ma mb Eq); simpl;
    rewrite ?CompOpp_involutive; reflexivity.
Qed.

Lemma SFcompare_refl (a : spec_float) :
  a <> S754_nan -> SFcompare a a = Some Eq.
Proof.
  destruct a as [s|s| |s m e]; simpl; intros H; try reflexivity.
  - destruct s; reflexivity.
  - congruence.
  - rewrite Z.compare_refl, Pos.compare_cont_refl. destruct s; reflexivity.
Qed.

Lemma SFcompare_total (a b : spec_float) :
  a <> S754_nan -> b <> S754_nan -> exists c, SFcompare a b = Some c.
Proof.
  destruct a, b; simpl; intros Ha Hb; try congruence; eexists; reflexivity.
Qed.

Lemma SFcompare_some (a b : spec_float) (c : comparison) :
  SFcompare a b = Some c -> a <> S754_nan /\ b <> S754_nan.
Proof. destruct a, b; simpl; intros H; split; congruence. Qed.

Lemma number_spec (a : float) : number a <-> Prim2SF a <> S754_nan.
Proof.
  unfold number, PrimFloat.is_nan. rewrite eqb_spec. unfold SFeqb. split.
  - intros H E. rewrite E in H. discriminate.
  - intros H. now rewrite (SFcompare_refl _ H).
Qed.

(** Order facts on numbers. *)
Lemma le_refl (a : float) : number a -> leq a a.
Proof.
  intros H. apply number_spec in H. unfold leq.
  rewrite leb_spec. unfold SFleb. now rewrite SFcompare_refl.
Qed.

Lemma lt_le (a b : float) : (a <? b)%float = true -> leq a b.
Proof.
  unfold leq. rewrite ltb_spec, leb_spec. unfold SFltb, SFleb.
  destruct (SFcompare (Prim2SF a) (Prim2SF b)) as [[| |]|]; congruence.
Qed.

Lemma not_lt_le (a b : float) :
  number a -> number b -> (a <? b)%float = false -> leq b a.
Proof.
  intros Ha Hb. apply number_spec in Ha, Hb. unfold leq.
  rewrite ltb_spec, leb_spec. unfold SFltb, SFleb.
  rewrite (SFcompare_antisym (Prim2SF a) (Prim2SF b)).
  destruct (SFcompare_total _ _ Ha Hb) as [c ->].
  destruct c; simpl; congruence.
Qed.

Lemma le_numbers (a b : float) : leq a b -> number a /\ number b.
Proof.
  unfold leq. rewrite leb_spec. unfold SFleb.
  destruct (SFcompare (Prim2SF a) (Prim2SF b)) as [c|] eqn:E; [|discriminate].
  intros _. apply SFcompare_some in E as [Ha Hb].
  split; now apply number_spec.
Qed.

(** [Math.min] of two numbers is one of them and lies below both. *)
Lemma min_spec (a b : float) :
  number a -> number b ->
  (Js.min a b = a \/ Js.min a b = b)
  /\ leq (Js.min a b) a /\ leq (Js.min a b) b.
Proof.
  intros Ha Hb. unfold Js.min. unfold number in Ha, Hb. rewrite Ha, Hb.
  cbn [orb].
  destruct (a <? b)%float eqn:Hab.
  - repeat split; [now left|now apply le_refl|now apply lt_le].
  - destruct (b <? a)%float eqn:Hba.
    + repeat split; [now right|now apply lt_le|now apply le_refl].
    + destruct (Js.is_neg_zero a).
      * repeat split; [now left|now apply le_refl|now apply not_lt_le].
      * repeat split; [now right|now apply not_lt_le|now apply le_refl].
Qed.

(** [Math.max] of two numbers is one of them and lies above both. *)
Lemma max_spec (a b : float) :
  number a -> number b ->
  (Js.max a b = a \/ Js.max a b = b)
  /\ leq a (Js.max a b) /\ leq b (Js.max a b).
Proof.
  intros Ha Hb. unfold Js.max. unfold number in Ha, Hb. rewrite Ha, Hb.
  cbn [orb].
  destruct (a <? b)%float eqn:Hab.
  - repeat split; [now right|now apply lt_le|now apply le_refl].
  - destruct (b <? a)%float eqn:Hba.
    + repeat split; [now left|now apply le_refl|now apply lt_le].
    + destruct (Js.is_neg_zero a).
      * repeat split; [now right|now apply not_lt_le|now apply le_refl].
      * repeat split; [now left|now apply le_refl|now apply not_lt_le].
Qed.

(** The clamp [Math.max(0, Math.min(v, bound))] of a number into a
    non-negative bound: the result is [0], [v] or [bound], and lies
    between [0] and [bound]. *)
Lemma clamp_spec (v bound : float) :
  number v -> leq 0%float bound ->
  let r := Js.max 0%float (Js.min v bound) in
  leq 0%float r /\ leq r bound
  /\ (r = 0%float \/ r = v \/ r = bound).
Proof.
  intros Hv Hb. cbv zeta.
  destruct (le_numbers _ _ Hb) as [H0 Hbn].
  destruct (min_spec v bound Hv Hbn) as (Hm & _ & Hmb).
  assert (Hmn : number (Js.min v bound))
    by (destruct Hm as [-> | ->]; assumption).
  destruct (max_spec 0%float (Js.min v bound) H0 Hmn) as (HM & H0M & _).
  split; [exact H0M|].
  destruct HM as [-> | ->].
  - split; [exact Hb|now left].
  - split; [exact Hmb|]. destruct Hm as [-> | ->]; auto.
Qed.

(** Rounding never produces [NaN]: the mantissa stays non-negative
    through the shifts and the rounding to nearest even, for any format. *)
Section Rounding.

Variables prec emax : Z.

Lemma shr_1_nonneg (mrs : shr_record) :
  (0 <= shr_m mrs -> 0 <= shr_m (shr_1 mrs))%Z.
Proof.
  destruct mrs as [m r s]. simpl.
  destruct m as [|[p|p|]|[p|p|]]; simpl; lia.
Qed.

Lemma iter_shr_1_nonneg (p : positive) :
  forall mrs, (0 <= shr_m mrs -> 0 <= shr_m (iter_pos shr_1 p mrs))%Z.
Proof.
  induction p as [p IH|p IH|]; intros mrs H; simpl.
  - apply IH, IH, shr_1_nonneg, H.
  - apply IH, IH, H.
  - apply shr_1_nonneg, H.
Qed.

Lemma shr_fexp_nonneg (m e : Z) (l : location) :
  (0 <= m -> 0 <= shr_m (fst (shr_fexp prec emax m e l)))%Z.
Proof.
  intros H. unfold shr_fexp, shr.
  assert (H0 : (0 <= shr_m (shr_record_of_loc m l))%Z)
    by (destruct l as [|[| |]]; exact H).
  destruct (fexp prec emax (Zdigits2 m + e) - e)%Z; simpl; try exact H0.
  now apply iter_shr_1_nonneg.
Qed.

Lemma round_nearest_even_nonneg (m : Z) (l : location) :
  (0 <= m -> 0 <= round_nearest_even m l)%Z.
Proof.
  intros H. destruct l as [|[| |]]; simpl; try lia.
  destruct (Z.even m); lia.
Qed.

Lemma binary_round_aux_number (sx : bool) (mx ex : Z) (lx : location) :
  (0 <= mx)%Z -> binary_round_aux prec emax sx mx ex lx <> S754_nan.
Proof.
  intros H. unfold binary_round_aux.
  pose proof (shr_fexp_nonneg mx ex lx H) as H1.
  destruct (shr_fexp prec emax mx ex lx) as [mrs' e']. simpl in H1.
  pose proof (shr_fexp_nonneg _ e' loc_Exact
                (round_nearest_even_nonneg _ (loc_of_shr_record mrs') H1))
    as H2.
  destruct (shr_fexp prec emax
              (round_nearest_even (shr_m mrs') (loc_of_shr_record mrs'))
              e' loc_Exact) as [mrs'' e'']. simpl in H2.
  destruct (shr_m mrs''); try discriminate.
  - destruct (e'' <=? emax - prec)%Z; discriminate.
  - lia.
Qed.

Lemma binary_normalize_number (m e : Z) (sz : bool) :
  binary_normalize prec emax m e sz <> S754_nan.
Proof.
  destruct m; simpl; try discriminate; unfold binary_round;
    destruct (shl_align _ _ _) as [mz ez];
    apply binary_round_aux_number; lia.
Qed.

(** So a difference of two finite values is not [NaN] (it may overflow to
    an infinity). *)
Lemma SFsub_finite_number (a b : spec_float) :
  finite_sf a -> finite_sf b -> SFsub prec emax a b <> S754_nan.
Proof.
  destruct a as [sa|sa| |sa ma ea], b as [sb|sb| |sb mb eb]; simpl;
    intros Ha Hb; try contradiction; try discriminate.
  - destruct sa, sb; discriminate.
  - apply binary_normalize_number.
Qed.

End Rounding.

(** The same on binary64 numbers. *)
Lemma is_finite_spec (a : float) :
  PrimFloat.is_finite a = true -> finite_sf (Prim2SF a).
Proof.
  unfold PrimFloat.is_finite, PrimFloat.is_nan, PrimFloat.is_infinity.
  rewrite !eqb_spec, abs_spec.
  destruct (Prim2SF a) as [s|s| |s m e]; simpl; try (intros _; exact I).
  - replace (Prim2SF infinity) with (S754_infinity false) by reflexivity.
    unfold SFeqb. simpl. destruct s; discriminate.
  - discriminate.
Qed.

Lemma sub_finite_number (a b : float) :
  PrimFloat.is_finite a = true -> PrimFloat.is_finite b = true ->
  number (a - b)%float.
Proof.
  intros Ha Hb. apply number_spec. rewrite sub_spec.
  apply SFsub_finite_number; now apply is_finite_spec.
Qed.

End NumberFacts.

(* ================================================================== *)
(** ** Properties of the pointer handling (MemeCanvas.tsx) *)
(* ================================================================== *)

Module DragFacts.

Import App MemeCanvas NumberNotions NumberFacts DragNotions.

Lemma spread_idempotent (c : MemeCaption) (u : PartialCaption) :
  spread (spread c u) u = spread c u.
Proof.
  destruct c, u as [[?|] [?|] [?|] [?|] [?|] [?|] [?|]]; reflexivity.
Qed.

Lemma spread_dragging (c : MemeCaption) (u : PartialCaption) :
  upd_isDragging u = None -> dragging (spread c u) = dragging c.
Proof. intros H. unfold dragging, spread. simpl. now rewrite H. Qed.

Lemma captions_pass (u : PartialCaption) (snapshot : list MemeCaption) :
  forall s,
    captions (pass u snapshot s)
    = fold_left
        (fun l cap => if dragging cap then updateCaptions (id cap) u l else l)
        snapshot (captions s).
Proof.
  unfold pass.
  induction snapshot as [|d rest IH]; intros s; cbn [fold_left];
    [reflexivity|].
  rewrite IH. destruct (dragging d); reflexivity.
Qed.

(** One pass merges [u] into exactly the touched captions. *)
Lemma pass_map (u : PartialCaption) (snapshot : list MemeCaption) (s : State) :
  captions (pass u snapshot s)
  = map (fun c => if touched snapshot c then spread c u else c) (captions s).
Proof.
  rewrite captions_pass. generalize (captions s) as l.
  induction snapshot as [|d rest IH]; intros l; cbn [fold_left].
  - symmetry. rewrite <- (map_id l) at 2. apply map_ext. reflexivity.
  - rewrite IH. unfold touched. cbn [existsb].
    destruct (dragging d); cbn [andb orb]; [|reflexivity].
    unfold updateCaptions. rewrite map_map. apply map_ext. intros c.
    destruct (String.eqb (id c) (id d)) eqn:E; cbn [orb].
    + rewrite spread_idempotent.
      now destruct (existsb _ rest).
    + reflexivity.
Qed.

Lemma touched_self (l : list MemeCaption) (c : MemeCaption) :
  In c l -> dragging c = true -> touched l c = true.
Proof.
  intros Hin Hd. unfold touched. apply existsb_exists.
  exists c. split; [exact Hin|]. now rewrite Hd, String.eqb_refl.
Qed.

Lemma handleMouseMove_pass (containerRect : DOMRect) (e : MouseEvent)
    (snapshot : list MemeCaption) (s : State) :
  handleMouseMove (Some containerRect) e snapshot s
  = pass (moveUpdate e containerRect) snapshot s.
Proof. reflexivity. Qed.

Lemma handleMouseUp_pass (snapshot : list MemeCaption) (s : State) :
  handleMouseUp snapshot s = pass releaseUpdate snapshot s.
Proof. reflexivity. Qed.

(** Counting dragged captions through a pointwise change. *)
Lemma draggingCount_map_same (h : MemeCaption -> MemeCaption)
    (l : list MemeCaption) :
  (forall c, dragging (h c) = dragging c) ->
  draggingCount (map h l) = draggingCount l.
Proof.
  intros H. unfold draggingCount.
  induction l as [|c l IH]; [reflexivity|].
  cbn [map filter]. rewrite H. destruct (dragging c); cbn [List.length]; lia.
Qed.

Lemma draggingCount_map_none (h : MemeCaption -> MemeCaption)
    (l : list MemeCaption) :
  (forall c, In c l -> dragging (h c) = false) ->
  draggingCount (map h l) = 0%nat.
Proof.
  intros H. unfold draggingCount.
  induction l as [|c l IH]; [reflexivity|].
  cbn [map filter]. rewrite (H c (or_introl eq_refl)).
  apply IH. intros c' Hc'. apply H. now right.
Qed.

Lemma draggingCount_zero (l : list MemeCaption) (c : MemeCaption) :
  draggingCount l = 0%nat -> In c l -> dragging c = false.
Proof.
  unfold draggingCount. induction l as [|d l IH]; intros H0 Hin.
  - destruct Hin.
  - cbn [filter] in H0. destruct Hin as [<- | Hin].
    + destruct (dragging d); [discriminate|reflexivity].
    + destruct (dragging d); [discriminate|now apply IH].
Qed.

(** No pointer event changes an id. *)
Lemma handle_ids (ev : PointerEvent) (s : State) :
  map id (captions (handle ev s)) = map id (captions s).
Proof.
  assert (Hmap : forall (h : MemeCaption -> MemeCaption) l,
             (forall c, id (h c) = id c) -> map id (map h l) = map id l).
  { intros h l H. rewrite map_map. apply map_ext. exact H. }
  destruct ev as [i| |[containerRect|] e|]; cbn [handle].
  - unfold handleMouseDown. rewrite AppFacts.captions_updateCaption.
    apply Hmap. intros c. destruct (String.eqb (id c) i); reflexivity.
  - reflexivity.
  - rewrite handleMouseMove_pass, pass_map. apply Hmap.
    intros c. destruct (touched _ c); reflexivity.
  - reflexivity.
  - rewrite handleMouseUp_pass, pass_map. apply Hmap.
    intros c. destruct (touched _ c); reflexivity.
Qed.

(** A pointer-down on a caption, when ids are distinct and nothing is
    dragged, starts at most one drag. *)
Lemma handleMouseDown_count (i : string) (l : list MemeCaption) :
  NoDup (map id l) ->
  draggingCount l = 0%nat ->
  (draggingCount
     (updateCaptions i (mkPartial None None None None None None (Some true)) l)
   <= 1)%nat.
Proof.
  set (u := mkPartial None None None None None None (Some true)).
  induction l as [|c l IH]; intros Hnd H0; [cbn; lia|].
  inversion Hnd as [|? ? Hnotin Hnd']; subst.
  assert (Hc : dragging c = false)
    by (apply (draggingCount_zero (c :: l)); [exact H0|now left]).
  assert (Hl : draggingCount l = 0%nat).
  { unfold draggingCount in *. cbn [filter] in H0. now rewrite Hc in H0. }
  unfold updateCaptions. cbn [map].
  destruct (String.eqb_spec (id c) i) as [E|E].
  - assert (Hrest : map (fun c0 => if String.eqb (id c0) i
                                   then spread c0 u else c0) l = l).
    { rewrite <- (map_id l) at 2. apply map_ext_in. intros c0 Hc0.
      destruct (String.eqb_spec (id c0) i) as [E0|]; [|reflexivity].
      exfalso. apply Hnotin. rewrite E, <- E0. now apply in_map. }
    rewrite Hrest. unfold draggingCount in *. cbn [filter].
    destruct (dragging (spread c u)); cbn [List.length]; lia.
  - unfold draggingCount in *. cbn [filter]. rewrite Hc.
    apply (IH Hnd' Hl).
Qed.

(** A pointer-up leaves nothing dragged. *)
Lemma handleMouseUp_count (s : State) :
  draggingCount (captions (handleMouseUp (captions s) s)) = 0%nat.
Proof.
  rewrite handleMouseUp_pass, pass_map.
  apply draggingCount_map_none. intros c Hin.
  destruct (touched (captions s) c) eqn:Ht; [reflexivity|].
  destruct (dragging c) eqn:Hd; [|reflexivity].
  now rewrite (touched_self _ _ Hin Hd) in Ht.
Qed.

(** A pointer-move changes no drag flag. *)
Lemma handleMouseMove_count (container : option DOMRect) (e : MouseEvent)
    (s : State) :
  draggingCount (captions (handleMouseMove container e (captions s) s))
  = draggingCount (captions s).
Proof.
  destruct container as [containerRect|]; [|reflexivity].
  rewrite handleMouseMove_pass, pass_map.
  apply draggingCount_map_same. intros c.
  destruct (touched (captions s) c); [|reflexivity].
  now apply spread_dragging.
Qed.

(** One pointer-move puts every caption that shares its id with a dragged
    one (the dragged caption itself, to begin with) at the clamped pointer
    position. *)
Lemma handleMouseMove_places (containerRect : DOMRect) (e : MouseEvent)
    (s : State) (c d : MemeCaption) :
  let after := handleMouseMove (Some containerRect) e (captions s) s in
  In c (captions after) ->
  In d (captions after) -> dragging d = true -> id c = id d ->
  x c = clampedX e containerRect /\ y c = clampedY e containerRect.
Proof.
  cbv zeta. rewrite handleMouseMove_pass, pass_map.
  intros Hc Hd Hdrag Hid.
  apply in_map_iff in Hc as (c0 & <- & Hc0).
  apply in_map_iff in Hd as (d0 & <- & Hd0).
  assert (Hdrag0 : dragging d0 = true).
  { destruct (touched (captions s) d0);
      [now rewrite spread_dragging in Hdrag|exact Hdrag]. }
  assert (Hid0 : id c0 = id d0).
  { destruct (touched (captions s) c0), (touched (captions s) d0);
      exact Hid. }
  assert (Ht : touched (captions s) c0 = true).
  { unfold touched. apply existsb_exists. exists d0.
    split; [exact Hd0|]. rewrite Hdrag0, Hid0. apply String.eqb_refl. }
  rewrite Ht. split; reflexivity.
Qed.

(** The clamped position lies inside the container. *)
Lemma clamped_inside (containerRect : DOMRect) (e : MouseEvent) :
  wellFormedMove containerRect e ->
  leq 0%float (clampedX e containerRect)
  /\ leq (clampedX e containerRect) (width containerRect)
  /\ leq 0%float (clampedY e containerRect)
  /\ leq (clampedY e containerRect) (height containerRect).
Proof.
  intros (Hx & Hy & Hl & Ht & Hw & Hh). unfold clampedX, clampedY.
  destruct (clamp_spec _ _ (sub_finite_number _ _ Hx Hl) Hw) as (? & ? & _).
  destruct (clamp_spec _ _ (sub_finite_number _ _ Hy Ht) Hh) as (? & ? & _).
  repeat split; assumption.
Qed.

(** A pointer-up moves nothing: each caption afterwards is a caption from
    before, with the same id and the same position. *)
Lemma handleMouseUp_keeps_position (s : State) (c : MemeCaption) :
  In c (captions (handleMouseUp (captions s) s)) ->
  exists c0, In c0 (captions s)
             /\ id c = id c0 /\ x c = x c0 /\ y c = y c0.
Proof.
  rewrite handleMouseUp_pass, pass_map. intros Hc.
  apply in_map_iff in Hc as (c0 & <- & Hc0).
  exists c0. split; [exact Hc0|].
  destruct (touched (captions s) c0); repeat split.
Qed.

(** The states of a run, one event apart. *)
Lemma run_step (evs : list PointerEvent) :
  forall (s : State) (k : nat) (ev : PointerEvent),
    nth_error evs k = Some ev ->
    exists st, nth_error (run evs s) k = Some st
               /\ nth_error (run evs s) (S k) = Some (handle ev st).
Proof.
  induction evs as [|ev0 rest IH]; intros s k ev Hk.
  - destruct k; discriminate.
  - destruct k as [|k]; cbn [nth_error] in Hk.
    + injection Hk as ->. exists s. split; [reflexivity|].
      cbn [run nth_error]. destruct rest; reflexivity.
    + destruct (IH (handle ev0 s) k ev Hk) as (st & H1 & H2).
      exists st. split; assumption.
Qed.

(** C3.  Along any sequence of pointer events, from any state: right after
    each pointer-move over a laid-out container, every caption being
    dragged is at [(pointerX - containerLeft, pointerY - containerTop)]
    clamped axis by axis with [Math.max(0, Math.min(., size))], and so has
    [0 <= x <= containerWidth] and [0 <= y <= containerHeight]; and a
    pointer-up at that point leaves the caption, no longer dragged, at
    that same position. *)
Theorem drag_positions_clamped (evs : list PointerEvent) (s : State)
    (k : nat) (containerRect : DOMRect) (e : MouseEvent) (after : State)
    (c : MemeCaption) :
  nth_error evs k = Some (Move (Some containerRect) e) ->
  wellFormedMove containerRect e ->
  nth_error (run evs s) (S k) = Some after ->
  In c (captions after) ->
  dragging c = true ->
  (x c = Js.max 0%float
           (Js.min (clientX e - left containerRect)%float
              (width containerRect))
   /\ y c = Js.max 0%float
              (Js.min (clientY e - top containerRect)%float
                 (height containerRect))
   /\ leq 0%float (x c) /\ leq (x c) (width containerRect)
   /\ leq 0%float (y c) /\ leq (y c) (height containerRect))
  /\ (forall released,
        In released (captions (handle Up after)) ->
        id released = id c ->
        x released = x c /\ y released = y c
        /\ dragging released = false).
Proof.
  intros Hk Hwf Hafter Hin Hd.
  destruct (run_step evs s k _ Hk) as (st & _ & Hnext).
  rewrite Hnext in Hafter. injection Hafter as <-.
  cbn [handle] in *.
  destruct (handleMouseMove_places containerRect e st c c Hin Hin Hd eq_refl)
    as [Hx Hy].
  split.
  - rewrite Hx, Hy. split; [reflexivity|split; [reflexivity|]].
    now apply clamped_inside.
  - intros released Hrel Hid.
    destruct (handleMouseUp_keeps_position _ _ Hrel)
      as (c0 & Hc0 & Hid0 & Hx0 & Hy0).
    destruct (handleMouseMove_places containerRect e st c0 c Hc0 Hin Hd)
      as [Hx1 Hy1]; [congruence|].
    split; [congruence|split; [congruence|]].
    apply (draggingCount_zero _ _ (handleMouseUp_count _) Hrel).
Qed.

(** The theorem at work: the caption of scenario A is grabbed and the
    pointer is taken to (1000, -20), outside the 800 by 600 container; the
    caption goes to (800, 0), on the container's edge, and stays there
    when it is released. *)
Lemma drag_positions_clamped_witness :
  let grabbed :=
    {| id := "1762041600000"; text := "ONE DOES NOT SIMPLY";
       x := 800%float; y := 0%float; color := "#FFFFFF";
       fontSize := 32%float; isDragging := Some true |} in
  let released :=
    {| id := "1762041600000"; text := "ONE DOES NOT SIMPLY";
       x := 800%float; y := 0%float; color := "#FFFFFF";
       fontSize := 32%float; isDragging := Some false |} in
  let far := mkMouse 1000%float (-20)%float in
  let evs := [DownOnCaption "1762041600000";
              Move (Some Scenario.containerA) far; Up] in
  map captions (run evs (Handlers.app Scenario.session))
  = [[Scenario.captionA];
     [{| id := "1762041600000"; text := "ONE DOES NOT SIMPLY";
         x := 400%float; y := 300%float; color := "#FFFFFF";
         fontSize := 32%float; isDragging := Some true |}];
     [grabbed]; [released]]
  /\ (leq 0%float (x grabbed) /\ leq (x grabbed) 800%float
      /\ leq 0%float (y grabbed) /\ leq (y grabbed) 600%float)
  /\ (x released = x grabbed /\ y released = y grabbed
      /\ dragging released = false).
Proof.
  cbv zeta. split; [reflexivity|].
  destruct (drag_positions_clamped
              [DownOnCaption "1762041600000";
               Move (Some Scenario.containerA)
                 (mkMouse 1000%float (-20)%float);
               Up]
              (Handlers.app Scenario.session) 1 Scenario.containerA
              (mkMouse 1000%float (-20)%float)
              (handle (Move (Some Scenario.containerA)
                         (mkMouse 1000%float (-20)%float))
                 (handle (DownOnCaption "1762041600000")
                    (Handlers.app Scenario.session)))
              {| id := "1762041600000"; text := "ONE DOES NOT SIMPLY";
                 x := 800%float; y := 0%float; color := "#FFFFFF";
                 fontSize := 32%float; isDragging := Some true |})
    as [(_ & _ & Hbounds) Hrelease].
  - reflexivity.
  - repeat split.
  - reflexivity.
  - left. reflexivity.
  - reflexivity.
  - split; [exact Hbounds|].
    apply Hrelease; [left|]; reflexivity.
Defined.

(** The invariant of a single-pointer run. *)
Lemma single_pointer_invariant (evs : list PointerEvent) :
  forall (down : bool) (s : State),
    NoDup (map id (captions s)) ->
    (if down then (draggingCount (captions s) <= 1)%nat
     else draggingCount (captions s) = 0%nat) ->
    single_pointer down evs = true ->
    Forall (fun st => (draggingCount (captions st) <= 1)%nat) (run evs s).
Proof.
  induction evs as [|ev rest IH]; intros down s Hnd Hinv Hsp; cbn [run].
  - constructor; [|constructor]. destruct down; lia.
  - constructor; [destruct down; lia|].
    assert (Hnd' : NoDup (map id (captions (handle ev s))))
      by now rewrite handle_ids.
    destruct ev as [i| |container e|]; cbn [single_pointer] in Hsp.
    + apply andb_prop in Hsp as [Hup Hrest].
      destruct down; [discriminate|].
      apply (IH true _ Hnd'); [|exact Hrest].
      cbn [handle]. unfold handleMouseDown.
      rewrite AppFacts.captions_updateCaption.
      now apply handleMouseDown_count.
    + apply andb_prop in Hsp as [Hup Hrest].
      destruct down; [discriminate|].
      apply (IH true _ Hnd'); [|exact Hrest].
      cbn [handle]. unfold handleContainerMouseDown.
      rewrite AppFacts.captions_setSelectedCaptionId. lia.
    + apply (IH down _ Hnd'); [|exact Hsp].
      cbn [handle]. now rewrite handleMouseMove_count.
    + apply (IH false _ Hnd'); [|exact Hsp].
      cbn [handle]. apply handleMouseUp_count.
Qed.

(** C4, as amended.  Start from a collection whose ids are pairwise
    distinct and in which nothing is dragged.  Along any single-pointer
    event sequence (no second pointer-down before a pointer-up; moves
    anywhere), every state passed through has at most one caption with
    [isDragging = true]. *)
Theorem single_pointer_single_drag (evs : list PointerEvent) (s : State) :
  NoDup (map id (captions s)) ->
  draggingCount (captions s) = 0%nat ->
  single_pointer false evs = true ->
  Forall (fun st => (draggingCount (captions st) <= 1)%nat) (run evs s).
Proof.
  intros Hnd H0 Hsp. exact (single_pointer_invariant evs false s Hnd H0 Hsp).
Qed.

(** The theorem at work on two captions with different ids: grab the
    first, move, release, grab the second, move, release, click the empty
    container, release.  The counts of dragged captions along the run are
    0, 1, 1, 0, 1, 1, 0, 0, 0. *)
Lemma single_pointer_single_drag_witness :
  let s := addCaption 1762041600450 "NEW TEXT"
             (Handlers.app Scenario.session) in
  let evs := [DownOnCaption "1762041600000";
              Move (Some Scenario.containerA) (mkMouse 1000%float (-20)%float);
              Up;
              DownOnCaption "1762041600450";
              Move (Some Scenario.containerA) (mkMouse 200%float 150%float);
              Up; DownOnContainer; Up] in
  map id (captions s) = ["1762041600000"; "1762041600450"]
  /\ Forall (fun st => (draggingCount (captions st) <= 1)%nat) (run evs s)
  /\ map (fun st => draggingCount (captions st)) (run evs s)
     = [0; 1; 1; 0; 1; 1; 0; 0; 0]%nat.
Proof.
  cbv zeta. split; [reflexivity|]. split; [|reflexivity].
  apply single_pointer_single_drag.
  - change (NoDup ["1762041600000"; "1762041600450"]).
    constructor; [intros [H | []]; discriminate H|].
    constructor; [intros []|constructor].
  - reflexivity.
  - reflexivity.
Defined.

(** C4, as stated, fails: two captions added within one millisecond share
    their id, and a single pointer-down on that id marks both as dragged. *)
Lemma same_tick_double_drag :
  let s := addCaptions [(1762041600000%Z, "NEW TEXT");
                        (1762041600000%Z, "NEW TEXT")] initial in
  let evs := [DownOnCaption "1762041600000"] in
  draggingCount (captions s) = 0%nat
  /\ single_pointer false evs = true
  /\ draggingCount (captions (handle (DownOnCaption "1762041600000") s))
     = 2%nat
  /\ ~ Forall (fun st => (draggingCount (captions st) <= 1)%nat) (run evs s).
Proof.
  cbv zeta. repeat split.
  intros H. inversion H as [|? ? _ H1]; subst.
  inversion H1 as [|? ? H2 _]; subst.
  cbv in H2. lia.
Qed.

End DragFacts.

(* ================================================================== *)
(** ** More on the caption collection: delete, and updates in sequence *)
(* ================================================================== *)

Module CollectionFacts.

Import App CollectionNotions.

Lemma captions_deleteCaption (i : string) (s : State) :
  captions (deleteCaption i s)
  = filter (fun c => negb (String.eqb (id c) i)) (captions s).
Proof.
  unfold deleteCaption. destruct (selectedCaptionId s) as [sel|];
    [destruct (String.eqb sel i)|]; reflexivity.
Qed.

Lemma filter_other_ids (i : string) (l : list MemeCaption) :
  ~ In i (map id l) ->
  filter (fun c => negb (String.eqb (id c) i)) l = l.
Proof.
  induction l as [|c l IH]; intros H; [reflexivity|].
  cbn [filter]. destruct (String.eqb_spec (id c) i) as [E|_].
  - exfalso. apply H. left. exact E.
  - cbn [negb]. f_equal. apply IH. intros Hin. apply H. now right.
Qed.

(** X1.  [deleteCaption id] leaves no caption carrying [id] and removes no
    other caption; the selection is cleared when it was [id] and kept
    otherwise; the other cells of the state are untouched. *)
Theorem deleteCaption_removes_id (i : string) (s : State) :
  let s' := deleteCaption i s in
  (forall c, In c (captions s') <-> In c (captions s) /\ id c <> i)
  /\ (selectedCaptionId s = Some i -> selectedCaptionId s' = None)
  /\ (selectedCaptionId s <> Some i ->
      selectedCaptionId s' = selectedCaptionId s)
  /\ (currentImage s', generatedCaptions s', appState s', editPrompt s',
      errorMsg s')
     = (currentImage s, generatedCaptions s, appState s, editPrompt s,
        errorMsg s).
Proof.
  cbv zeta. split; [|split; [|split]].
  - intros c. rewrite captions_deleteCaption, filter_In.
    destruct (String.eqb_spec (id c) i) as [E|E]; cbn [negb]; split;
      intros [H1 H2]; split; try assumption; try discriminate;
      try reflexivity; contradiction.
  - intros H. unfold deleteCaption. rewrite H, String.eqb_refl. reflexivity.
  - intros H. unfold deleteCaption.
    destruct (selectedCaptionId s) as [sel|] eqn:Hsel; [|exact Hsel].
    destruct (String.eqb_spec sel i) as [E|_]; [|exact Hsel].
    exfalso. apply H. now rewrite E.
  - unfold deleteCaption. destruct (selectedCaptionId s) as [sel|];
      [destruct (String.eqb sel i)|]; reflexivity.
Qed.

(** X2.  When ids are pairwise distinct, deleting the id of a caption of
    the collection removes that one caption and nothing else: the captions
    before it and after it stay, in their order. *)
Theorem deleteCaption_removes_one (s : State)
    (before after : list MemeCaption) (c : MemeCaption) :
  captions s = (before ++ c :: after)%list ->
  NoDup (map id (captions s)) ->
  captions (deleteCaption (id c) s) = (before ++ after)%list.
Proof.
  intros Hs Hnd. rewrite captions_deleteCaption, Hs.
  rewrite Hs, map_app in Hnd. cbn [map] in Hnd.
  apply NoDup_remove_2 in Hnd.
  rewrite filter_app. cbn [filter]. rewrite String.eqb_refl. cbn [negb].
  rewrite !filter_other_ids; [reflexivity| |];
    intros H; apply Hnd, in_or_app; [now right|now left].
Qed.

(** The theorem at work: the middle one of three captions is deleted. *)
Lemma deleteCaption_removes_one_witness :
  let a := newCaption "1" "TOP" in
  let b := newCaption "2" "MIDDLE" in
  let c := newCaption "3" "BOTTOM" in
  captions (deleteCaption "2" (setCaptions (fun _ => [a; b; c]) initial))
  = [a; c].
Proof.
  cbv zeta.
  apply (deleteCaption_removes_one
           (setCaptions (fun _ => [newCaption "1" "TOP";
                                   newCaption "2" "MIDDLE";
                                   newCaption "3" "BOTTOM"]) initial)
           [newCaption "1" "TOP"] [newCaption "3" "BOTTOM"]
           (newCaption "2" "MIDDLE")).
  - reflexivity.
  - cbn. repeat constructor; cbn; intuition discriminate.
Defined.

(** X3.  Adding a caption under an id that is not in use and then
    deleting that id gives back the state from before the addition, with
    nothing selected. *)
Theorem add_then_delete (now : Z) (t : string) (s : State) :
  ~ In (Js.toString now) (map id (captions s)) ->
  deleteCaption (Js.toString now) (addCaption now t s)
  = setSelectedCaptionId None s.
Proof.
  intros Hfresh. unfold deleteCaption, addCaption.
  cbn [selectedCaptionId setSelectedCaptionId setCaptions captions
       currentImage generatedCaptions appState editPrompt errorMsg].
  rewrite String.eqb_refl.
  unfold setSelectedCaptionId, setCaptions.
  cbn [selectedCaptionId captions currentImage generatedCaptions appState
       editPrompt errorMsg].
  f_equal. rewrite filter_app. cbn [filter newCaption id].
  rewrite String.eqb_refl. cbn [negb].
  rewrite app_nil_r. now apply filter_other_ids.
Qed.

(** The theorem at work on the empty collection. *)
Lemma add_then_delete_witness :
  deleteCaption "1762041600000" (addCaption 1762041600000 "NEW TEXT" initial)
  = initial.
Proof.
  apply (add_then_delete 1762041600000 "NEW TEXT" initial).
  intros [].
Defined.

Lemma spread_merge (c : MemeCaption) (u1 u2 : PartialCaption) :
  spread (spread c u1) u2 = spread c (mergeUpdates u1 u2).
Proof.
  unfold spread, mergeUpdates, over.
  cbn [id text x y color fontSize isDragging upd_id upd_text upd_x upd_y
       upd_color upd_fontSize upd_isDragging].
  f_equal;
    repeat match goal with
           | |- context [match ?o with Some _ => _ | None => _ end] =>
               destruct o
           end; reflexivity.
Qed.

Lemma setCaptions_ext (f g : list MemeCaption -> list MemeCaption)
    (s : State) :
  f (captions s) = g (captions s) -> setCaptions f s = setCaptions g s.
Proof. intros H. unfold setCaptions. now rewrite H. Qed.

(** X4.  Two updates sent to the same id one after the other act as the
    single update that merges them, [{ ...u1, ...u2 }], as long as the
    first does not rename the caption; and sending the same update twice
    is the same as sending it once. *)
Theorem updateCaption_twice (i : string) (u1 u2 : PartialCaption)
    (s : State) :
  (upd_id u1 = None ->
   updateCaption i u2 (updateCaption i u1 s)
   = updateCaption i (mergeUpdates u1 u2) s)
  /\ updateCaption i u1 (updateCaption i u1 s) = updateCaption i u1 s.
Proof.
  split.
  - intros Hid. unfold updateCaption.
    change (setCaptions (updateCaptions i u2)
              (setCaptions (updateCaptions i u1) s))
      with (setCaptions
              (fun l => updateCaptions i u2 (updateCaptions i u1 l)) s).
    apply setCaptions_ext. unfold updateCaptions. rewrite map_map.
    apply map_ext. intros c.
    destruct (String.eqb (id c) i) eqn:E.
    + assert (Hc : id (spread c u1) = id c)
        by (unfold spread; cbn [id]; now rewrite Hid).
      rewrite Hc, E. apply spread_merge.
    + now rewrite E.
  - unfold updateCaption.
    change (setCaptions (updateCaptions i u1)
              (setCaptions (updateCaptions i u1) s))
      with (setCaptions
              (fun l => updateCaptions i u1 (updateCaptions i u1 l)) s).
    apply setCaptions_ext. unfold updateCaptions. rewrite map_map.
    apply map_ext. intros c.
    destruct (String.eqb (id c) i) eqn:E; [|now rewrite E].
    destruct (String.eqb (id (spread c u1)) i); [|reflexivity].
    destruct c, u1 as [[?|] [?|] [?|] [?|] [?|] [?|] [?|]]; reflexivity.
Qed.

(** The theorem at work on a grab followed by a move of the caption of
    scenario A: the two updates equal the one that does both. *)
Lemma updateCaption_twice_witness :
  let grab := mkPartial None None None None None None (Some true) in
  let move :=
    mkPartial None None (Some 120%float) (Some 80%float) None None None in
  let both :=
    mkPartial None None (Some 120%float) (Some 80%float) None None
      (Some true) in
  let s := Handlers.app Scenario.session in
  updateCaption "1762041600000" move (updateCaption "1762041600000" grab s)
  = updateCaption "1762041600000" both s.
Proof.
  cbv zeta.
  exact (proj1 (updateCaption_twice "1762041600000"
                  (mkPartial None None None None None None (Some true))
                  (mkPartial None None (Some 120%float) (Some 80%float)
                     None None None)
                  (Handlers.app Scenario.session)) eq_refl).
Defined.

(** X5.  Updates sent to two different ids can be applied in either
    order, as long as neither renames a caption. *)
Theorem updateCaption_commute (i j : string) (u v : PartialCaption)
    (s : State) :
  i <> j -> upd_id u = None -> upd_id v = None ->
  updateCaption i u (updateCaption j v s)
  = updateCaption j v (updateCaption i u s).
Proof.
  intros Hij Hu Hv. unfold updateCaption.
  change (setCaptions (updateCaptions i u) (setCaptions (updateCaptions j v) s))
    with (setCaptions
            (fun l => updateCaptions i u (updateCaptions j v l)) s).
  change (setCaptions (updateCaptions j v) (setCaptions (updateCaptions i u) s))
    with (setCaptions
            (fun l => updateCaptions j v (updateCaptions i u l)) s).
  apply setCaptions_ext. unfold updateCaptions. rewrite !map_map.
  apply map_ext. intros c.
  assert (Hcu : id (spread c u) = id c)
    by (unfold spread; cbn [id]; now rewrite Hu).
  assert (Hcv : id (spread c v) = id c)
    by (unfold spread; cbn [id]; now rewrite Hv).
  destruct (String.eqb (id c) i) eqn:Ei, (String.eqb (id c) j) eqn:Ej;
    rewrite ?Hcu, ?Hcv, ?Ei, ?Ej; try reflexivity.
  exfalso. apply Hij.
  apply String.eqb_eq in Ei, Ej. now rewrite <- Ei, <- Ej.
Qed.

(** The theorem at work: retyping one caption and recolouring another. *)
Lemma updateCaption_commute_witness :
  let s := setCaptions (fun _ => [newCaption "1" "TOP"; newCaption "2" "BOTTOM"])
             initial in
  let retype := mkPartial None (Some "EDITED") None None None None None in
  let recolour := mkPartial None None None None (Some "#FF0000") None None in
  updateCaption "1" retype (updateCaption "2" recolour s)
  = updateCaption "2" recolour (updateCaption "1" retype s).
Proof.
  cbv zeta. apply updateCaption_commute; [discriminate|reflexivity|reflexivity].
Defined.

End CollectionFacts.

(* ================================================================== *)
(** ** More on the asynchronous handlers: every path, and what they
       leave alone *)
(* ================================================================== *)

Module HandlerPathFacts.

Import App Handlers.

Ltac run_handler :=
  unfold handleMagicCaption, handleImageEdit, handleShare, handleDownload,
    exportBlob, Task.try_finally, Task.try_catch, Task.bind, Task.get,
    Task.ret, Task.await, Task.throw, call, Task.zoom, set, tell,
    Task.modify.

(** X6.  Once a caption-suggestion request is made (there is an image),
    [handleMagicCaption] ends with the request status at [IDLE]; when the
    collaborator resolves, its list replaces the suggestions and no message
    is shown; when it rejects, the suggestions stay as they were and the
    handler's message is shown.  Image, captions, selection and prompt are
    untouched either way. *)
Theorem handleMagicCaption_settles
    (gen : string -> Task Log (list GeneratedCaption)) (w : World)
    (img : string) :
  currentImage (app w) = Some img ->
  Js.truthy (Some img) = true ->
  let w' := snd (handleMagicCaption gen w) in
  appState (app w') = IDLE
  /\ (forall results,
        fst (gen img (log w)) = Resolved results ->
        generatedCaptions (app w') = results /\ errorMsg (app w') = None)
  /\ (forall e,
        fst (gen img (log w)) = Rejected e ->
        generatedCaptions (app w') = generatedCaptions (app w)
        /\ errorMsg (app w')
           = Some "Failed to generate captions. Try again.")
  /\ (currentImage (app w'), captions (app w'), selectedCaptionId (app w'),
      editPrompt (app w'))
     = (currentImage (app w), captions (app w), selectedCaptionId (app w),
        editPrompt (app w)).
Proof.
  intros Himg Ht. cbv zeta. run_handler.
  rewrite Himg, Ht. cbn [negb fst snd app log].
  destruct (gen img (log w)) as [[results|e] l]; cbn [fst snd app log].
  - split; [reflexivity|split; [|split]].
    + intros r [= <-]. split; reflexivity.
    + intros e He. discriminate He.
    + cbn. now rewrite Himg.
  - split; [reflexivity|split; [|split]].
    + intros r Hr. discriminate Hr.
    + intros e' _. split; reflexivity.
    + cbn. now rewrite Himg.
Qed.

(** The theorem at work: the suggestion service answers with two captions
    in one session and fails in another. *)
Lemma handleMagicCaption_settles_witness :
  let two := [mkGenerated "ONE DOES NOT SIMPLY" Funny;
              mkGenerated "MONDAYS" Relatable] in
  let good := fun (_ : string) => @Task.ret Log _ two in
  let bad := fun (_ : string) =>
               @Task.throw Log (list GeneratedCaption) "503" in
  generatedCaptions (app (snd (handleMagicCaption good Scenario.session)))
  = two
  /\ errorMsg (app (snd (handleMagicCaption bad Scenario.session)))
     = Some "Failed to generate captions. Try again."
  /\ appState (app (snd (handleMagicCaption bad Scenario.session))) = IDLE.
Proof.
  cbv zeta. split; [|split].
  - apply (handleMagicCaption_settles _ Scenario.session
             "data:image/png;base64,iVBORw0KGgo=" eq_refl eq_refl).
    reflexivity.
  - apply (handleMagicCaption_settles _ Scenario.session
             "data:image/png;base64,iVBORw0KGgo=" eq_refl eq_refl) with (e := "503").
    reflexivity.
  - apply (handleMagicCaption_settles _ Scenario.session
             "data:image/png;base64,iVBORw0KGgo=" eq_refl eq_refl).
Defined.

(** X7.  When the export yields a blob, [handleDownload] saves exactly
    that blob, once, under the name [memegen-<clock>.png], and changes
    nothing in the component's state. *)
Theorem handleDownload_saves (dom : MemeCanvas.Dom) (now : Z) (w : World)
    (b : Blob) :
  MemeCanvas.generateMemeBlob dom (captions (app w)) = Resolved (Some b) ->
  handleDownload (Some dom) now w
  = (Resolved tt,
     {| app := app w;
        log := (log w
                  ++ [SaveLink ("memegen-" ++ Js.toString now ++ ".png") b])%list |}).
Proof.
  intros H. run_handler. rewrite H. reflexivity.
Qed.

(** The theorem at work on the page of scenario A. *)
Lemma handleDownload_saves_witness :
  handleDownload (Some Scenario.domA) 1762041600000 Scenario.session
  = (Resolved tt,
     {| app := app Scenario.session;
        log := [SaveLink "memegen-1762041600000.png" Scenario.png] |}).
Proof.
  exact (handleDownload_saves Scenario.domA 1762041600000 Scenario.session
           Scenario.png eq_refl).
Defined.

(** X8.  With a blob exported and a share sheet that accepts the file,
    [handleShare] offers the share sheet one PNG file named [meme.png] and
    nothing is downloaded; when the user completes the share nothing else
    happens, and when the share is rejected (cancelled) the rejection only
    reaches the console.  The component's state is unchanged in both. *)
Theorem handleShare_native (dom : MemeCanvas.Dom) (navigator : Navigator)
    (now : Z) (w : World) (b : Blob)
    (nativeShare : ShareData -> Outcome unit) (can : list File -> bool) :
  MemeCanvas.generateMemeBlob dom (captions (app w)) = Resolved (Some b) ->
  share navigator = Some nativeShare ->
  canShare navigator = Some can ->
  can [mkFile [b] "meme.png" "image/png"] = true ->
  let data :=
    mkShare "MemeGen AI" "Check out this meme I created with MemeGen AI!"
      [mkFile [b] "meme.png" "image/png"] in
  (nativeShare data = Resolved tt ->
   handleShare (Some dom) navigator now w
   = (Resolved tt, {| app := app w; log := (log w ++ [Share data])%list |}))
  /\ (forall e, nativeShare data = Rejected e ->
        handleShare (Some dom) navigator now w
        = (Resolved tt,
           {| app := app w;
              log := (log w ++ [Share data;
                                ConsoleError ("Share failed: " ++ e)])%list |})).
Proof.
  intros Hb Hs Hc Hcan. cbv zeta. split.
  - intros Hok. run_handler. rewrite Hb. cbn [fst snd app log].
    rewrite Hs, Hc, Hcan. cbn [fst snd app log]. rewrite Hok. reflexivity.
  - intros e He. run_handler. rewrite Hb. cbn [fst snd app log].
    rewrite Hs, Hc, Hcan. cbn [fst snd app log]. rewrite He.
    cbn [fst snd app log]. now rewrite <- app_assoc.
Qed.

(** The theorem at work: the user completes the share of scenario A. *)
Lemma handleShare_native_witness :
  handleShare (Some Scenario.domA) Scenario.sharingNavigator 1762041600000
    Scenario.session
  = (Resolved tt,
     {| app := app Scenario.session;
        log := [Share (mkShare "MemeGen AI"
                         "Check out this meme I created with MemeGen AI!"
                         [mkFile [Scenario.png] "meme.png" "image/png"])] |}).
Proof.
  exact (proj1 (handleShare_native Scenario.domA Scenario.sharingNavigator
                  1762041600000 Scenario.session Scenario.png
                  (fun _ => Resolved tt) (fun _ => true)
                  eq_refl eq_refl eq_refl eq_refl) eq_refl).
Defined.



Ltac split_cases :=
  repeat match goal with
         | |- context [match ?t with _ => _ end] =>
             lazymatch t with
             | context [match _ with _ => _ end] => fail
             | _ => destruct t eqn:?
             end
         end.

(** X10.  None of the four handlers lets a failure escape: whatever the
    collaborators, the page and the browser do, each handler's promise
    resolves. *)
Theorem handlers_never_reject
    (gen : string -> Task Log (list GeneratedCaption))
    (edit : string -> string -> Task Log string)
    (memeCanvasRef : option MemeCanvas.Dom) (navigator : Navigator)
    (now : Z) (w : World) :
  fst (handleMagicCaption gen w) = Resolved tt
  /\ fst (handleImageEdit edit w) = Resolved tt
  /\ fst (handleDownload memeCanvasRef now w) = Resolved tt
  /\ fst (handleShare memeCanvasRef navigator now w) = Resolved tt.
Proof.
  split; [|split; [|split]]; run_handler; cbn [fst snd app log];
    split_cases; cbn [fst snd] in *; subst;
    try reflexivity; try congruence;
    repeat match goal with u : unit |- _ => destruct u end;
    try reflexivity; try congruence.
Qed.

(** X11.  What the handlers never write.  No handler touches the captions
    or the selection.  Beyond that, the suggestion handler leaves the image
    and the prompt alone, the edit handler leaves the suggestions alone,
    and download and share leave every cell but the error message alone. *)
Theorem handlers_frame
    (gen : string -> Task Log (list GeneratedCaption))
    (edit : string -> string -> Task Log string)
    (memeCanvasRef : option MemeCanvas.Dom) (navigator : Navigator)
    (now : Z) (w : World) :
  let magic := app (snd (handleMagicCaption gen w)) in
  let edited := app (snd (handleImageEdit edit w)) in
  let saved := app (snd (handleDownload memeCanvasRef now w)) in
  let shared := app (snd (handleShare memeCanvasRef navigator now w)) in
  (captions magic, selectedCaptionId magic, currentImage magic,
   editPrompt magic)
  = (captions (app w), selectedCaptionId (app w), currentImage (app w),
     editPrompt (app w))
  /\ (captions edited, selectedCaptionId edited, generatedCaptions edited)
     = (captions (app w), selectedCaptionId (app w),
        generatedCaptions (app w))
  /\ (captions saved, selectedCaptionId saved, currentImage saved,
      generatedCaptions saved, appState saved, editPrompt saved)
     = (captions (app w), selectedCaptionId (app w), currentImage (app w),
        generatedCaptions (app w), appState (app w), editPrompt (app w))
  /\ (captions shared, selectedCaptionId shared, currentImage shared,
      generatedCaptions shared, appState shared, editPrompt shared)
     = (captions (app w), selectedCaptionId (app w), currentImage (app w),
        generatedCaptions (app w), appState (app w), editPrompt (app w)).
Proof.
  cbv zeta.
  split; [|split; [|split]]; run_handler; cbn [fst snd app log];
    split_cases; cbn in *; subst; try reflexivity; try congruence.
Qed.

(** The earlier facts [handleImageEdit_guard] and
    [handleImageEdit_success] at work: a prompt of blanks, or of a
    no-break space and an ideographic space, makes no request; a model
    that answers with an image part replaces the image and clears the
    prompt. *)
Lemma handleImageEdit_guard_witness :
  let blank := {| app := setEditPrompt "   " (app Scenario.session);
                  log := [] |} in
  let wide := {| app := setEditPrompt (Js.nbsp ++ Js.ideographicSpace)
                          (app Scenario.session);
                 log := [] |} in
  let edit :=
    GeminiService.editMemeImage Scenario.offline Scenario.textOnlyModel in
  handleImageEdit edit blank = (Resolved tt, blank)
  /\ handleImageEdit edit wide = (Resolved tt, wide).
Proof.
  cbv zeta.
  split; apply HandlerFacts.handleImageEdit_guard; right; reflexivity.
Defined.

Lemma handleImageEdit_success_witness :
  let ai : GeminiService.Model :=
    fun _ => Resolved [None; Some (GeminiService.mkInline "image/png" "TkVX")] in
  let w' := snd (handleImageEdit
                   (GeminiService.editMemeImage Scenario.offline ai)
                   Scenario.session) in
  currentImage (app w') = Some "data:image/png;base64,TkVX"
  /\ captions (app w') = [Scenario.captionA]
  /\ editPrompt (app w') = ""
  /\ errorMsg (app w') = None
  /\ appState (app w') = IDLE.
Proof.
  cbv zeta.
  exact (HandlerFacts.handleImageEdit_success
           (GeminiService.editMemeImage Scenario.offline
              (fun _ => Resolved
                 [None; Some (GeminiService.mkInline "image/png" "TkVX")]))
           Scenario.session "data:image/png;base64,iVBORw0KGgo="
           "data:image/png;base64,TkVX" eq_refl eq_refl eq_refl eq_refl).
Defined.

End HandlerPathFacts.

(* ================================================================== *)
(** ** Sessions: the selection always points at a caption *)
(* ================================================================== *)

Module UiFacts.

Import App CollectionNotions Ui.

Lemma valid_same (s s' : State) :
  map id (captions s') = map id (captions s) ->
  selectedCaptionId s' = selectedCaptionId s ->
  selectionValid s -> selectionValid s'.
Proof.
  unfold selectionValid. intros Hc Hs. now rewrite Hc, Hs.
Qed.

Lemma ids_updateCaption (i : string) (u : PartialCaption) (s : State) :
  upd_id u = None ->
  map id (captions (updateCaption i u s)) = map id (captions s).
Proof.
  intros Hu. rewrite AppFacts.captions_updateCaption.
  unfold updateCaptions. rewrite map_map. apply map_ext. intros c.
  destruct (String.eqb (id c) i); [|reflexivity].
  unfold spread. cbn [id]. now rewrite Hu.
Qed.

Lemma find_selected (i : string) (l : list MemeCaption) :
  In i (map id l) ->
  exists c, find (fun c => String.eqb (id c) i) l = Some c /\ id c = i.
Proof.
  induction l as [|c l IH]; intros Hin; [destruct Hin|].
  cbn [find]. destruct (String.eqb_spec (id c) i) as [E|E].
  - now exists c.
  - apply IH. destruct Hin as [H|H]; [contradiction|exact H].
Qed.

Lemma selectedCaption_id (s : State) (c : MemeCaption) :
  selectedCaption s = Some c -> selectedCaptionId s = Some (id c).
Proof.
  unfold selectedCaption. destruct (selectedCaptionId s) as [sel|];
    [|discriminate].
  intros H. apply find_some in H as [_ H].
  apply String.eqb_eq in H. now rewrite H.
Qed.

Lemma valid_deleteCaption (i : string) (s : State) :
  selectionValid s -> selectionValid (deleteCaption i s).
Proof.
  unfold selectionValid. intros Hv.
  destruct (selectedCaptionId s) as [sel|] eqn:Hsel.
  - destruct (String.eqb_spec sel i) as [E|E].
    + unfold deleteCaption. rewrite Hsel.
      apply String.eqb_eq in E. rewrite E. exact I.
    + assert (Hkeep : selectedCaptionId (deleteCaption i s) = Some sel).
      { unfold deleteCaption. rewrite Hsel.
        apply String.eqb_neq in E. rewrite E. exact Hsel. }
      rewrite Hkeep, CollectionFacts.captions_deleteCaption.
      apply in_map_iff in Hv as (c & Hc & Hin).
      apply in_map_iff. exists c. split; [exact Hc|].
      apply filter_In. split; [exact Hin|].
      rewrite Hc. apply String.eqb_neq in E. now rewrite E.
  - unfold deleteCaption. rewrite Hsel. cbn. now rewrite Hsel.
Qed.

Lemma valid_pointer (ev : MemeCanvas.PointerEvent) (s : State) :
  match ev with
  | MemeCanvas.DownOnCaption i => In i (map id (captions s))
  | _ => True
  end ->
  selectionValid s -> selectionValid (MemeCanvas.handle ev s).
Proof.
  intros Hev Hv. unfold selectionValid.
  rewrite DragFacts.handle_ids.
  destruct ev as [i| |[containerRect|] e|].
  - exact Hev.
  - exact I.
  - assert (E : selectedCaptionId
                  (MemeCanvas.handle
                     (MemeCanvas.Move (Some containerRect) e) s)
                = selectedCaptionId s).
    { cbn [MemeCanvas.handle]. unfold MemeCanvas.handleMouseMove.
      generalize (captions s) at 1. intros snapshot. revert s Hv.
      induction snapshot as [|d rest IH]; intros s Hv; [reflexivity|].
      cbn [fold_left]. destruct (dragging d); [|apply IH; exact Hv].
      rewrite IH; [reflexivity|].
      apply (valid_same s); [now apply ids_updateCaption|reflexivity|exact Hv]. }
    rewrite E. exact Hv.
  - exact Hv.
  - assert (E : selectedCaptionId (MemeCanvas.handle MemeCanvas.Up s)
                = selectedCaptionId s).
    { cbn [MemeCanvas.handle]. unfold MemeCanvas.handleMouseUp.
      generalize (captions s) at 1. intros snapshot. revert s Hv.
      induction snapshot as [|d rest IH]; intros s Hv; [reflexivity|].
      cbn [fold_left]. destruct (dragging d); [|apply IH; exact Hv].
      rewrite IH; [reflexivity|].
      apply (valid_same s); [now apply ids_updateCaption|reflexivity|exact Hv]. }
    rewrite E. exact Hv.
Qed.

Lemma valid_step (a : Action) (s : State) :
  selectionValid s -> selectionValid (step a s).
Proof.
  intros Hv.
  assert (Hadd : forall now t, selectionValid (addCaption now t s)).
  { intros now t. unfold selectionValid.
    cbn [addCaption selectedCaptionId setSelectedCaptionId].
    rewrite AppFacts.captions_addCaption, map_app.
    apply in_or_app. right. now left. }
  assert (Hpanel : forall u, upd_id u = None -> selectionValid (onPanel u s)).
  { intros u Hu. unfold onPanel.
    destruct (selectedCaption s) as [c|]; [|exact Hv].
    apply (valid_same s); [now apply ids_updateCaption|reflexivity|exact Hv]. }
  destruct a; cbn [step].
  - apply Hadd.
  - destruct (nth_error (generatedCaptions s) k); [apply Hadd|exact Hv].
  - now apply Hpanel.
  - now apply Hpanel.
  - now apply Hpanel.
  - destruct (selectedCaption s); [now apply valid_deleteCaption|exact Hv].
  - destruct (canvasShown s); [|exact Hv].
    destruct (nth_error (captions s) n) as [c|]; [|exact Hv].
    destruct (selectedCaptionId s) as [sel|] eqn:Hsel; [|exact Hv].
    destruct (String.eqb sel (id c)); [now apply valid_deleteCaption|exact Hv].
  - destruct (canvasShown s); [|exact Hv].
    destruct (nth_error (captions s) n) as [c|] eqn:Hn; [|exact Hv].
    apply valid_pointer; [|exact Hv].
    apply in_map. eapply nth_error_In. exact Hn.
  - destruct (canvasShown s); [|exact Hv].
    now apply valid_pointer.
  - destruct (canvasShown s); [|exact Hv].
    now apply valid_pointer.
  - now apply valid_pointer.
  - destruct (canvasShown s); [exact Hv|].
    destruct (nth_error TEMPLATES k); exact Hv.
  - unfold uploadNew. destruct (nth_error files 0) as [f|]; [|exact Hv].
    destruct (read f); exact Hv.
  - exact Hv.
Qed.

(** X12.  Whatever the user does (add, pick a suggestion, edit or delete
    through the panel, delete on the canvas, press, move, release, choose
    a template, upload, type a prompt), starting from a state whose
    selection is valid: the selected id, if any, is the id of a caption of
    the collection, so the edit panel has a caption to show. *)
Theorem selection_never_dangles (acts : list Action) (s : State) :
  selectionValid s ->
  let s' := session acts s in
  selectionValid s'
  /\ (forall i, selectedCaptionId s' = Some i ->
        exists c, selectedCaption s' = Some c /\ id c = i).
Proof.
  intros Hv. cbv zeta.
  assert (Hv' : selectionValid (session acts s)).
  { unfold session. revert s Hv.
    induction acts as [|a rest IH]; intros s Hv; [exact Hv|].
    cbn [fold_left]. apply IH. now apply valid_step. }
  split; [exact Hv'|].
  intros i Hi. unfold selectionValid in Hv'. unfold selectedCaption.
  rewrite Hi in *. now apply find_selected.
Qed.

(** The theorem at work on a session from the empty page: upload, add two
    captions, press the first, retype it, delete it from the panel. *)
Lemma selection_never_dangles_witness :
  let upload :=
    UploadFiles (fun _ => GeminiService.ReadDone "data:image/png;base64,UE5H")
      [Scenario.png] in
  let acts := [upload; ClickAddText 1762041600000; ClickAddText 1762041600450;
               PressCaption 0; ReleasePointer; TypeText "WHEN THE BUILD PASSES";
               ClickPanelDelete] in
  selectionValid (session acts initial)
  /\ List.length (captions (session acts initial)) = 1%nat.
Proof.
  cbv zeta. split; [|reflexivity].
  apply selection_never_dangles. exact I.
Defined.

End UiFacts.

(* ================================================================== *)
(** ** More on the pointer handling: what it leaves alone *)
(* ================================================================== *)

Module PointerFacts.

Import App MemeCanvas CollectionNotions DragNotions.

Lemma map_keeps {A : Type} (key : MemeCaption -> A)
    (h : MemeCaption -> MemeCaption) (l : list MemeCaption) :
  (forall c, key (h c) = key c) -> map key (map h l) = map key l.
Proof. intros H. rewrite map_map. apply map_ext. exact H. Qed.

(** Every pointer event keeps each caption's id, text, colour and size. *)
Lemma handle_look (ev : PointerEvent) (s : State) :
  map look (captions (handle ev s)) = map look (captions s).
Proof.
  destruct ev as [i| |[containerRect|] e|]; cbn [handle].
  - unfold handleMouseDown. rewrite AppFacts.captions_updateCaption.
    apply map_keeps. intros c. destruct (String.eqb (id c) i); reflexivity.
  - reflexivity.
  - rewrite DragFacts.handleMouseMove_pass, DragFacts.pass_map.
    apply map_keeps. intros c. destruct (touched _ c); reflexivity.
  - reflexivity.
  - rewrite DragFacts.handleMouseUp_pass, DragFacts.pass_map.
    apply map_keeps. intros c. destruct (touched _ c); reflexivity.
Qed.

(** Every pointer event but a move over the container keeps each
    caption's position. *)
Lemma handle_place (ev : PointerEvent) (s : State) :
  noMove [ev] = true ->
  map place (captions (handle ev s)) = map place (captions s).
Proof.
  destruct ev as [i| |[containerRect|] e|]; cbn [handle noMove forallb];
    intros Hev; try discriminate.
  - unfold handleMouseDown. rewrite AppFacts.captions_updateCaption.
    apply map_keeps. intros c. destruct (String.eqb (id c) i); reflexivity.
  - reflexivity.
  - reflexivity.
  - rewrite DragFacts.handleMouseUp_pass, DragFacts.pass_map.
    apply map_keeps. intros c. destruct (touched _ c); reflexivity.
Qed.

(** X13.  Pointer events never add, remove, reorder, rename, retype,
    recolour or resize a caption: in every state passed through while any
    list of events is handled, the captions have, position by position,
    the ids, texts, colours and font sizes they started with. *)
Theorem pointer_events_keep_look (evs : list PointerEvent) (s : State) :
  Forall (fun st => map look (captions st) = map look (captions s))
    (run evs s).
Proof.
  revert s. induction evs as [|ev rest IH]; intros s; cbn [run].
  - constructor; [reflexivity|constructor].
  - constructor; [reflexivity|].
    eapply Forall_impl; [|apply IH].
    cbn beta. intros st Hst. rewrite Hst. apply handle_look.
Qed.

(** X14.  Presses and releases alone never move a caption: along a list
    of events with no pointer-move over the container, every caption stays
    where it was. *)
Theorem clicks_never_move (evs : list PointerEvent) (s : State) :
  noMove evs = true ->
  Forall (fun st => map place (captions st) = map place (captions s))
    (run evs s).
Proof.
  revert s. induction evs as [|ev rest IH]; intros s Hevs; cbn [run].
  - constructor; [reflexivity|constructor].
  - constructor; [reflexivity|].
    cbn [noMove forallb] in Hevs. apply andb_prop in Hevs as [Hev Hrest].
    eapply Forall_impl; [|apply (IH _ Hrest)].
    cbn beta. intros st Hst. rewrite Hst. apply handle_place.
    cbn [noMove forallb]. now rewrite Hev.
Qed.

(** The theorem at work: two clicks on the caption of scenario A and one
    on the empty container. *)
Lemma clicks_never_move_witness :
  Forall (fun st => map place (captions st) = [(400%float, 300%float)])
    (run [DownOnCaption "1762041600000"; Up; DownOnContainer; Up;
          DownOnCaption "1762041600000"; Up]
       (Handlers.app Scenario.session)).
Proof.
  exact (clicks_never_move
           [DownOnCaption "1762041600000"; Up; DownOnContainer; Up;
            DownOnCaption "1762041600000"; Up]
           (Handlers.app Scenario.session) eq_refl).
Defined.

Lemma pass_idle (u : PartialCaption) (snapshot : list MemeCaption)
    (s : State) :
  (forall d, In d snapshot -> dragging d = false) ->
  pass u snapshot s = s.
Proof.
  unfold pass. revert s.
  induction snapshot as [|d rest IH]; intros s H; [reflexivity|].
  cbn [fold_left]. rewrite (H d (or_introl eq_refl)).
  apply IH. intros d' Hd'. apply H. now right.
Qed.

(** X15.  With nothing being dragged, a pointer-move and a pointer-up
    change nothing at all; and a pointer-move changes nothing either when
    the container is not mounted. *)
Theorem idle_pointer_is_noop (container : option DOMRect) (e : MouseEvent)
    (s : State) :
  (draggingCount (captions s) = 0%nat ->
   handle (Move container e) s = s /\ handle Up s = s)
  /\ handle (Move None e) s = s.
Proof.
  split; [|reflexivity].
  intros H0.
  assert (Hidle : forall d, In d (captions s) -> dragging d = false)
    by (intros d; apply DragFacts.draggingCount_zero; exact H0).
  split.
  - destruct container as [containerRect|]; [|reflexivity].
    cbn [handle]. rewrite DragFacts.handleMouseMove_pass.
    now apply pass_idle.
  - cbn [handle]. rewrite DragFacts.handleMouseUp_pass. now apply pass_idle.
Qed.

(** The theorem at work: hovering over the canvas of scenario A. *)
Lemma idle_pointer_is_noop_witness :
  handle (Move (Some Scenario.containerA) (mkMouse 10%float 20%float))
    (Handlers.app Scenario.session)
  = Handlers.app Scenario.session.
Proof.
  exact (proj1 (proj1 (idle_pointer_is_noop (Some Scenario.containerA)
                         (mkMouse 10%float 20%float)
                         (Handlers.app Scenario.session)) eq_refl)).
Defined.

Lemma untouched (l : list MemeCaption) (c : MemeCaption) :
  (forall d, In d l -> dragging d = true -> id d <> id c) ->
  touched l c = false.
Proof.
  intros H. unfold touched.
  destruct (existsb _ l) eqn:E; [|reflexivity].
  apply existsb_exists in E as (d & Hd & Hb).
  apply andb_prop in Hb as [Hdrag Hid].
  apply String.eqb_eq in Hid. exfalso. now apply (H d Hd Hdrag).
Qed.

(** X16.  Dragging moves only the captions it is meant to: a caption
    whose id is not the id of a dragged caption comes out of a
    pointer-move, and of a pointer-up, exactly as it went in, at its place
    in the collection. *)
Theorem drag_leaves_others (containerRect : DOMRect) (e : MouseEvent)
    (s : State) (n : nat) (c : MemeCaption) :
  nth_error (captions s) n = Some c ->
  (forall d, In d (captions s) -> dragging d = true -> id d <> id c) ->
  nth_error (captions (handle (Move (Some containerRect) e) s)) n = Some c
  /\ nth_error (captions (handle Up s)) n = Some c.
Proof.
  intros Hn Hother. apply untouched in Hother. cbn [handle]. split.
  - rewrite DragFacts.handleMouseMove_pass, DragFacts.pass_map,
      nth_error_map, Hn. cbn [option_map]. now rewrite Hother.
  - rewrite DragFacts.handleMouseUp_pass, DragFacts.pass_map,
      nth_error_map, Hn. cbn [option_map]. now rewrite Hother.
Qed.

(** The theorem at work: of two captions the second is being dragged; the
    first keeps its place while the pointer moves. *)
Lemma drag_leaves_others_witness :
  let top := newCaption "1" "TOP" in
  let bottom :=
    {| id := "2"; text := "BOTTOM"; x := 300%float; y := 500%float;
       color := "#FFFFFF"; fontSize := 32%float; isDragging := Some true |} in
  let s := setCaptions (fun _ => [top; bottom]) initial in
  nth_error
    (captions (handle (Move (Some Scenario.containerA)
                         (mkMouse 10%float 20%float)) s)) 0
  = Some top.
Proof.
  cbv zeta.
  apply (drag_leaves_others Scenario.containerA (mkMouse 10%float 20%float)
           (setCaptions
              (fun _ =>
                 [newCaption "1" "TOP";
                  {| id := "2"; text := "BOTTOM"; x := 300%float;
                     y := 500%float; color := "#FFFFFF";
                     fontSize := 32%float; isDragging := Some true |}])
              initial)
           0 (newCaption "1" "TOP")).
  - reflexivity.
  - intros d [<- | [<- | []]]; cbn; discriminate.
Defined.

End PointerFacts.

(* ================================================================== *)
(** ** More on the export: what it reads and how it grows *)
(* ================================================================== *)

Module ExportReadFacts.

Import MemeCanvas ExportNotions CollectionNotions.

Lemma drawCaption_printed (scale offsetX offsetY : float) (c : Canvas)
    (cap1 cap2 : MemeCaption) :
  printed cap1 = printed cap2 ->
  drawCaption scale offsetX offsetY c cap1
  = drawCaption scale offsetX offsetY c cap2.
Proof.
  destruct cap1, cap2. unfold printed. cbn [text x y color fontSize].
  intros [= -> -> -> -> ->]. reflexivity.
Qed.

Lemma fold_drawCaption_printed (scale offsetX offsetY : float)
    (captions1 : list MemeCaption) :
  forall (captions2 : list MemeCaption) (c : Canvas),
    map printed captions1 = map printed captions2 ->
    fold_left (drawCaption scale offsetX offsetY) captions1 c
    = fold_left (drawCaption scale offsetX offsetY) captions2 c.
Proof.
  induction captions1 as [|cap1 rest1 IH]; intros [|cap2 rest2] c H;
    try discriminate; [reflexivity|].
  cbn [map] in H.
  pose proof (f_equal (hd (printed cap1)) H) as Hcap.
  pose proof (f_equal (@tl _) H) as Hrest.
  cbn [hd tl] in Hcap, Hrest. cbn [fold_left].
  rewrite (drawCaption_printed _ _ _ c cap1 cap2 Hcap).
  now apply IH.
Qed.

(** X17.  The export reads a caption's text, position, colour and size and
    nothing else: two collections that agree on these, caption by caption,
    give the same canvas and the same outcome, whatever their ids and drag
    flags. *)
Theorem export_reads_printed_only (img : HTMLImageElement)
    (containerRect : DOMRect) (captions1 captions2 : list MemeCaption) :
  map printed captions1 = map printed captions2 ->
  compose img containerRect captions1 = compose img containerRect captions2
  /\ (forall dom, generateMemeBlob dom captions1
                  = generateMemeBlob dom captions2).
Proof.
  intros H. split.
  - unfold compose. now apply fold_drawCaption_printed.
  - intros dom. unfold generateMemeBlob.
    destruct (imgRef dom) as [im|]; [|reflexivity].
    destruct (containerRef dom) as [rect|]; [|reflexivity].
    destruct (getContext2d dom); [|reflexivity].
    f_equal. unfold compose. now apply fold_drawCaption_printed.
Qed.

(** The theorem at work: the caption of scenario A exports the same while
    it is being dragged and under another id. *)
Lemma export_reads_printed_only_witness :
  let grabbed :=
    {| id := "42"; text := "ONE DOES NOT SIMPLY"; x := 400%float;
       y := 300%float; color := "#FFFFFF"; fontSize := 32%float;
       isDragging := Some true |} in
  generateMemeBlob Scenario.domA [grabbed]
  = generateMemeBlob Scenario.domA [Scenario.captionA].
Proof.
  cbv zeta.
  apply (export_reads_printed_only Scenario.imageA Scenario.containerA).
  reflexivity.
Defined.

(** X18.  The export draws the image once and then two text calls per
    caption, in collection order: captions added at the end of the
    collection only add drawing calls after the ones already there, so
    later captions lie on top; with no caption only the image is drawn. *)
Theorem export_appends (img : HTMLImageElement) (containerRect : DOMRect)
    (captions more : list MemeCaption) :
  drawn (compose img containerRect (captions ++ more))
  = (drawn (compose img containerRect captions)
       ++ flat_map
            (captionOps (exportScale img) (exportOffsetX img containerRect)
               (exportOffsetY img containerRect)) more)%list
  /\ List.length (drawn (compose img containerRect captions))
     = S (2 * List.length captions)
  /\ drawn (compose img containerRect [])
     = [DrawImage img 0%float 0%float].
Proof.
  rewrite !ExportFacts.compose_drawn. split; [|split].
  - rewrite flat_map_app. reflexivity.
  - cbn [List.length]. f_equal.
    induction captions as [|c l IH]; [reflexivity|].
    cbn [flat_map List.length captionOps app]. rewrite IH. lia.
  - reflexivity.
Qed.

End ExportReadFacts.

(* ================================================================== *)
(** ** More on geminiService.ts: the helpers and the two requests *)
(* ================================================================== *)

Module ServicePathFacts.

Import GeminiService CaptionService.

(** No piece of a split holds the separator. *)
Lemma split_pieces (c : ascii) (s : string) :
  Forall (fun piece => Js.includes c piece = false) (Js.split c s).
Proof.
  induction s as [|d r IH]; cbn [Js.split].
  - constructor; [reflexivity|constructor].
  - destruct (Ascii.eqb d c) eqn:E.
    + constructor; [reflexivity|exact IH].
    + destruct (Js.split c r) as [|h t].
      * constructor; [|constructor]. cbn [Js.includes]. now rewrite E.
      * inversion IH as [|? ? Hh Ht]; subst.
        constructor; [|exact Ht]. cbn [Js.includes]. now rewrite E, Hh.
Qed.

(** X19.  [base64ToGenerativePart] always answers with a string that holds
    no comma, and it leaves such a string as it is: applying it to its own
    answer changes nothing. *)
Theorem base64ToGenerativePart_idempotent (s v : string) :
  base64ToGenerativePart s = Some v ->
  Js.includes "," v = false /\ base64ToGenerativePart v = Some v.
Proof.
  intros H.
  assert (Hv : Js.includes "," v = false).
  { unfold base64ToGenerativePart, afterComma in H.
    destruct (Js.includes "," s) eqn:E.
    - pose proof (split_pieces "," s) as Hall.
      rewrite Forall_forall in Hall. apply Hall.
      eapply nth_error_In. exact H.
    - now injection H as <-. }
  split; [exact Hv|].
  unfold base64ToGenerativePart. now rewrite Hv.
Qed.

(** The theorem at work on an uploaded image. *)
Lemma base64ToGenerativePart_idempotent_witness :
  Js.includes "," "iVBORw0KGgo=" = false
  /\ base64ToGenerativePart "iVBORw0KGgo=" = Some "iVBORw0KGgo=".
Proof.
  exact (base64ToGenerativePart_idempotent
           "data:image/png;base64,iVBORw0KGgo=" "iVBORw0KGgo=" eq_refl).
Defined.

(** X20.  [fileToGenerativePart] asks for one read of the file.  A read
    error rejects with the error event, an empty result rejects with
    "Failed to read file", a data URL [<meta>,<payload>] resolves to the
    payload, and a non-empty result with no comma resolves to
    [undefined]. *)
Theorem fileToGenerativePart_outcomes (p : Platform) (file : Blob)
    (log : Log) :
  let r := fileToGenerativePart p file log in
  snd r = (log ++ [ReadAsDataURL file])%list
  /\ (forall ev, readAsDataURL p file = ReadError ev -> fst r = Rejected ev)
  /\ (readAsDataURL p file = ReadDone "" ->
      fst r = Rejected "Failed to read file")
  /\ (forall meta payload,
        readAsDataURL p file = ReadDone (meta ++ "," ++ payload) ->
        Js.includes "," meta = false ->
        Js.includes "," payload = false ->
        fst r = Resolved (Some payload))
  /\ (forall result,
        readAsDataURL p file = ReadDone result ->
        result <> "" ->
        Js.includes "," result = false ->
        fst r = Resolved None).
Proof.
  cbv zeta. unfold fileToGenerativePart, Task.bind, Task.ret, Task.throw,
    tell, Task.modify. cbn [fst snd].
  split; [|split; [|split; [|split]]].
  - destruct (readAsDataURL p file) as [ev|[|c res]]; reflexivity.
  - intros ev ->. reflexivity.
  - intros ->. reflexivity.
  - intros meta payload -> Hm Hp.
    assert (Ht : Js.truthy (Some (meta ++ "," ++ payload)) = true)
      by (destruct meta; reflexivity).
    rewrite Ht. cbn [fst]. unfold afterComma.
    change (meta ++ "," ++ payload) with (meta ++ String "," payload).
    rewrite (ServiceFacts.split_at_first_comma _ _ Hm),
      (ServiceFacts.split_no_comma _ Hp). reflexivity.
  - intros result -> Hne Hc.
    assert (Ht : Js.truthy (Some result) = true)
      by (destruct result; [contradiction|reflexivity]).
    rewrite Ht. cbn [fst]. unfold afterComma.
    now rewrite (ServiceFacts.split_no_comma _ Hc).
Qed.

(** The theorem at work on the platform whose reader gives a PNG data
    URL, and on one whose reader gives a bare ["data:"]. *)
Lemma fileToGenerativePart_outcomes_witness :
  fst (fileToGenerativePart Scenario.online Scenario.png [])
  = Resolved (Some "UE5H")
  /\ fst (fileToGenerativePart Scenario.offline Scenario.png [])
     = Rejected "error"
  /\ fst (fileToGenerativePart
            (mkPlatform (fun _ => Rejected "x") (fun _ => ReadDone "data:")
               (fun _ => None) false (fun _ => Rejected "x"))
            Scenario.png [])
     = Resolved None.
Proof.
  split; [|split].
  - apply (fileToGenerativePart_outcomes Scenario.online Scenario.png [])
      with (meta := "data:image/png;base64"); reflexivity.
  - now apply (fileToGenerativePart_outcomes Scenario.offline Scenario.png []).
  - apply (fileToGenerativePart_outcomes
             (mkPlatform (fun _ => Rejected "x") (fun _ => ReadDone "data:")
                (fun _ => None) false (fun _ => Rejected "x"))
             Scenario.png []) with (result := "data:");
      [reflexivity|discriminate|reflexivity].
Defined.

(** A body wrapped in "log the error and throw it again". *)
Lemma rethrow_spec {A : Type} (body : Task Log A) (label : string)
    (log : Log) :
  let r := Task.try_catch body
             (fun error =>
                tell (ConsoleError (label ++ error)) ;; Task.throw error)
             log in
  (forall v l, body log = (Resolved v, l) -> r = (Resolved v, l))
  /\ (forall e l, body log = (Rejected e, l) ->
        r = (Rejected e, (l ++ [ConsoleError (label ++ e)])%list)).
Proof.
  cbv zeta. unfold Task.try_catch. split.
  - intros v l ->. reflexivity.
  - intros e l ->. reflexivity.
Qed.

Lemma firstInline_skips (skipped : nat) (d : InlineData)
    (rest : list (option InlineData)) :
  firstInline (repeat None skipped ++ Some d :: rest) = Some d.
Proof. induction skipped as [|k IH]; [reflexivity|exact IH]. Qed.

Lemma firstInline_none (skipped : nat) :
  firstInline (repeat None skipped) = None.
Proof. induction skipped as [|k IH]; [reflexivity|exact IH]. Qed.

Lemma startsWith_app (p s : string) : Js.startsWith p (p ++ s) = true.
Proof.
  unfold Js.startsWith. induction p as [|a p IH];
    [now destruct s|].
  cbn. destruct (ascii_dec a a) as [_|Hne]; [exact IH|now elim Hne].
Qed.

(** The request [editMemeImage] sends for a normalised image and a
    prompt. *)
Lemma editMemeImage_unfold (p : Platform) (ai : Model)
    (imageInput prompt : string) (log : Log) :
  editMemeImage p ai imageInput prompt log
  = Task.try_catch
      (cleanBase64 <- resolveImageInput p imageInput ;;
       parts <- Task.await
         (ai {| req_model := "gemini-2.5-flash-image";
                req_image := cleanBase64;
                req_text := "Edit this image: " ++ prompt ++
                  ". Maintain the main subject but apply the requested changes." |}) ;;
       match firstInline parts with
       | Some d => Task.ret ("data:" ++ mimeType d ++ ";base64," ++ data d)
       | None => Task.throw "No image generated in response"
       end)
      (fun error =>
         tell (ConsoleError ("Error editing image: " ++ error)) ;;
         Task.throw error) log.
Proof. reflexivity. Qed.

(** X21.  [editMemeImage], once the image is normalised, sends the model
    the image and the prompt wrapped in its instruction.  The answer's
    first part that carries image data, whatever comes before or after
    it, is returned as [data:<mime>;base64,<data>]; an answer with no such
    part rejects with "No image generated in response".  Every failure,
    this one or one from the normalisation or from the model, is written
    to the console once and passed on unchanged. *)
Theorem editMemeImage_outcomes (p : Platform) (ai : Model)
    (imageInput prompt : string) (log : Log) :
  let r := editMemeImage p ai imageInput prompt log in
  let request clean :=
    {| req_model := "gemini-2.5-flash-image";
       req_image := clean;
       req_text := "Edit this image: " ++ prompt ++
         ". Maintain the main subject but apply the requested changes." |} in
  (forall clean l skipped d rest,
     resolveImageInput p imageInput log = (Resolved clean, l) ->
     ai (request clean)
     = Resolved (repeat None skipped ++ Some d :: rest)%list ->
     r = (Resolved ("data:" ++ mimeType d ++ ";base64," ++ data d), l))
  /\ (forall clean l skipped,
        resolveImageInput p imageInput log = (Resolved clean, l) ->
        ai (request clean) = Resolved (repeat None skipped) ->
        r = (Rejected "No image generated in response",
             (l ++ [ConsoleError
                      "Error editing image: No image generated in response"])%list))
  /\ (forall clean l e,
        resolveImageInput p imageInput log = (Resolved clean, l) ->
        ai (request clean) = Rejected e ->
        r = (Rejected e,
             (l ++ [ConsoleError ("Error editing image: " ++ e)])%list))
  /\ (forall l e,
        resolveImageInput p imageInput log = (Rejected e, l) ->
        r = (Rejected e,
             (l ++ [ConsoleError ("Error editing image: " ++ e)])%list)).
Proof.
  cbv zeta. rewrite editMemeImage_unfold.
  split; [|split; [|split]].
  - intros clean l skipped d rest Hres Hai.
    apply rethrow_spec. unfold Task.bind, Task.await, Task.ret.
    now rewrite Hres, Hai, firstInline_skips.
  - intros clean l skipped Hres Hai.
    apply (rethrow_spec _ "Error editing image: ").
    unfold Task.bind, Task.await, Task.throw.
    now rewrite Hres, Hai, firstInline_none.
  - intros clean l e Hres Hai.
    apply rethrow_spec. unfold Task.bind, Task.await.
    now rewrite Hres, Hai.
  - intros l e Hres.
    apply rethrow_spec. unfold Task.bind. now rewrite Hres.
Qed.

(** The theorem at work: the model answers with a text part followed by
    an image part. *)
Lemma editMemeImage_outcomes_witness :
  editMemeImage Scenario.offline
    (fun _ => Resolved [None; Some (mkInline "image/png" "TkVX")])
    "data:image/png;base64,iVBORw0KGgo=" "make it cyberpunk" []
  = (Resolved "data:image/png;base64,TkVX", []).
Proof.
  apply (proj1 (editMemeImage_outcomes Scenario.offline
                  (fun _ => Resolved [None; Some (mkInline "image/png" "TkVX")])
                  "data:image/png;base64,iVBORw0KGgo=" "make it cyberpunk" [])
           (Some "iVBORw0KGgo=") [] 1%nat (mkInline "image/png" "TkVX") []);
    reflexivity.
Defined.

(** X22.  What [editMemeImage] returns is always a [data:] URL: handed
    back to [resolveImageInput] (as happens when the edited image is
    edited or captioned again), it is answered from the string alone, on
    any platform, with no fetch, no file read and no canvas. *)
Theorem edited_image_is_never_fetched (p : Platform) (ai : Model)
    (imageInput prompt edited : string) (log : Log) :
  fst (editMemeImage p ai imageInput prompt log) = Resolved edited ->
  Js.startsWith "data:" edited = true
  /\ (forall (p' : Platform) (log' : Log),
        exists v, resolveImageInput p' edited log' = (Resolved (Some v), log')).
Proof.
  rewrite editMemeImage_unfold. unfold Task.try_catch, Task.bind, Task.await.
  destruct (resolveImageInput p imageInput log) as [[clean|e] l];
    [|cbn; discriminate].
  destruct (ai _) as [parts|e]; [|cbn; discriminate].
  destruct (firstInline parts) as [d|]; [|cbn; discriminate].
  unfold Task.ret. intros Heq.
  assert (He : edited = "data:" ++ mimeType d ++ ";base64," ++ data d)
    by (symmetry; exact (f_equal (fun o => match o with
                                           | Resolved v => v
                                           | Rejected _ => edited
                                           end) Heq)).
  clear Heq.
  assert (Hd : Js.startsWith "data:" edited = true)
    by (rewrite He; apply startsWith_app).
  split; [exact Hd|].
  intros p' log'.
  destruct (ServiceFacts.base64ToGenerativePart_defined edited) as [v Hv].
  exists v. unfold resolveImageInput, Task.ret. now rewrite Hd, Hv.
Qed.

(** The theorem at work: the image edited above is normalised offline. *)
Lemma edited_image_is_never_fetched_witness :
  Js.startsWith "data:" "data:image/png;base64,TkVX" = true
  /\ (forall (p' : Platform) (log' : Log),
        exists v,
          resolveImageInput p' "data:image/png;base64,TkVX" log'
          = (Resolved (Some v), log')).
Proof.
  exact (edited_image_is_never_fetched Scenario.offline
           (fun _ => Resolved [None; Some (mkInline "image/png" "TkVX")])
           "data:image/png;base64,iVBORw0KGgo=" "make it cyberpunk"
           "data:image/png;base64,TkVX" [] eq_refl).
Defined.

(** X23.  [generateMemeCaptions], once the image is normalised, hands
    [JSON.parse] the model's text, or ["[]"] when the text is missing or
    empty, and returns what the parser returns.  Every failure, from the
    normalisation, the model or the parser, is written to the console once
    and passed on unchanged. *)
Theorem generateMemeCaptions_outcomes {J : Type} (p : Platform)
    (ai : TextModel) (parse : string -> Outcome J) (imageInput : string)
    (log : Log) :
  let r := generateMemeCaptions p ai parse imageInput log in
  let settle (o : Outcome J) (l : Log) :=
    match o with
    | Resolved v => (Resolved v, l)
    | Rejected e =>
        (Rejected e,
         (l ++ [ConsoleError ("Error generating captions: " ++ e)])%list)
    end in
  (forall clean l t answer,
     resolveImageInput p imageInput log = (Resolved clean, l) ->
     ai (mkCaptionRequest "gemini-3-pro-preview" clean answer)
     = Resolved t ->
     answer = "Analyze this image and generate 5 funny, viral-worthy meme captions. 
            Provide a mix of styles (Funny, Sarcastic, Relatable). 
            Return the response in strictly valid JSON format." ->
     (t = None \/ t = Some "" -> r = settle (parse "[]") l)
     /\ (forall text, t = Some text -> text <> "" ->
           r = settle (parse text) l))
  /\ (forall e, fst r = Rejected e ->
        exists l,
          snd r
          = (l ++ [ConsoleError ("Error generating captions: " ++ e)])%list).
Proof.
  cbv zeta. unfold generateMemeCaptions. split.
  - intros clean l t answer Hres Hai ->.
    assert (Hrun : forall jsonText,
              textOrEmptyArray t = jsonText ->
              Task.try_catch
                (cleanBase64 <- resolveImageInput p imageInput ;;
                 t0 <- Task.await
                   (ai {| cap_model := "gemini-3-pro-preview";
                          cap_image := cleanBase64;
                          cap_text := "Analyze this image and generate 5 funny, viral-worthy meme captions. 
            Provide a mix of styles (Funny, Sarcastic, Relatable). 
            Return the response in strictly valid JSON format." |}) ;;
                 Task.await (parse (textOrEmptyArray t0)))
                (fun error =>
                   tell (ConsoleError ("Error generating captions: " ++ error)) ;;
                   Task.throw error) log
              = match parse jsonText with
                | Resolved v => (Resolved v, l)
                | Rejected e =>
                    (Rejected e,
                     (l ++ [ConsoleError
                              ("Error generating captions: " ++ e)])%list)
                end).
    { intros jsonText <-.
      destruct (parse (textOrEmptyArray t)) as [v|e] eqn:Hp.
      - apply rethrow_spec. unfold Task.bind, Task.await.
        now rewrite Hres, Hai, Hp.
      - apply rethrow_spec. unfold Task.bind, Task.await.
        now rewrite Hres, Hai, Hp. }
    split.
    + intros [-> | ->]; now apply Hrun.
    + intros text -> Hne. apply Hrun.
      destruct text; [contradiction|reflexivity].
  - intros e. unfold Task.try_catch.
    destruct ((cleanBase64 <- resolveImageInput p imageInput ;; _) log)
      as [[v|e'] l]; cbn; [discriminate|].
    intros [= ->]. now exists l.
Qed.

(** The theorem at work: the model gives no text for an uploaded image,
    so the parser sees ["[]"]. *)
Lemma generateMemeCaptions_outcomes_witness :
  let parse := fun s : string =>
                 if String.eqb s "[]"
                 then Resolved (@nil GeneratedCaption)
                 else Rejected "SyntaxError" in
  generateMemeCaptions Scenario.offline (fun _ => Resolved None) parse
    "data:image/png;base64,iVBORw0KGgo=" []
  = (Resolved [], []).
Proof.
  cbv zeta.
  refine (proj1 (proj1 (generateMemeCaptions_outcomes Scenario.offline
                          (fun _ => Resolved None) _
                          "data:image/png;base64,iVBORw0KGgo=" [])
                   (Some "iVBORw0KGgo=") [] None _ eq_refl eq_refl eq_refl)
            (or_introl eq_refl)).
Defined.

End ServicePathFacts.
